(** * Double-entry ledger: the transaction-posting handler

    A shallow embedding of [src/pages/api/transaction/index.ts] and of the
    Prisma schema it writes to, together with the properties of the posting
    operation.

    Modelling decisions.
    - JSON numbers are integers in [Z].  A Prisma [Int] column holds a
      32-bit signed integer: a value outside that range, submitted or
      computed by an update, makes the operation fail.
    - The enum members of the schema are closed inductive types.  A request
      body is JSON, so the [debitCredit] and [accountType] fields of a
      submitted ledger entry are strings; the Prisma client exposes each enum
      member as the string of its name ([AccountType.ASSET] is ["ASSET"]),
      and the handler compares them with [==].
    - [prisma.entry.create] and [prisma.account.update] build lazy
      operations; nothing is executed until [prisma.$transaction] receives
      the list.  Operations are therefore data ([PrismaOp]) and the store is
      an interpreter for them.
    - No query of the handlers has an [orderBy]: the order in which rows
      come back is the database's choice and is a parameter of every read.
    - The [createdAt] / [updatedAt] columns are wall-clock time and are left
      out. *)

From stdpp Require Import gmap strings list fin_maps.

Local Open Scope string_scope.
Local Open Scope list_scope.
Local Open Scope Z_scope.

(** ** The Prisma schema *)

Inductive AccountType := ASSET | LIABILITY.
Inductive DebitCredit := DEBIT | CREDIT.

(** The runtime value of an enum member is the string of its name. *)
Definition AccountType_wire (t : AccountType) : string :=
  match t with ASSET => "ASSET" | LIABILITY => "LIABILITY" end.

Definition DebitCredit_wire (d : DebitCredit) : string :=
  match d with DEBIT => "DEBIT" | CREDIT => "CREDIT" end.

(** What the client accepts for a [DebitCredit] column: a member's name. *)
Definition DebitCredit_of_wire (s : string) : option DebitCredit :=
  if String.eqb s "DEBIT" then Some DEBIT
  else if String.eqb s "CREDIT" then Some CREDIT
  else None.

Module Account.
(** model Account *)
Record t := mk {
  id : Z;
  name : option string;
  accountType : AccountType;
  balance : Z
}.

Definition with_balance (b : Z) (a : t) : t :=
  {| id := id a; name := name a; accountType := accountType a; balance := b |}.

Definition with_accountType (ty : AccountType) (a : t) : t :=
  {| id := id a; name := name a; accountType := ty; balance := balance a |}.
End Account.

Module Entry.
(** model Entry *)
Record t := mk {
  id : Z;
  transactionId : Z;
  name : option string;
  description : option string;
  debitCredit : DebitCredit;
  amount : Z;
  accountId : Z
}.
End Entry.

(** ** The request *)

Module LedgerEntry.
(** interface LedgerEntry *)
Record t := mk {
  transactionId : Z;
  amount : Z;
  accountId : Z;
  debitCredit : string;
  name : string;
  accountType : string
}.
End LedgerEntry.

Module TransactionBody.
(** The [body] of [TransactionBodyType].  [ledgerEntries] may be absent
    from the JSON object, in which case the handler's destructuring
    default applies. *)
Record t := mk {
  name : string;
  description : string;
  ledgerEntries : option (list LedgerEntry.t)
}.
End TransactionBody.

(** ** Prisma operations *)

(** The atomic number operations of an [Int] field update. *)
Inductive IntFieldUpdate :=
  | increment (n : Z)
  | decrement (n : Z).

Module EntryCreateInput.
(** The [data] argument of [prisma.entry.create].  [description] is an
    optional column: a [data] object without it stores null. *)
Record t := mk {
  transactionId : Z;
  name : string;
  description : option string;
  debitCredit : string;
  amount : Z;
  accountId : Z
}.
End EntryCreateInput.

Module AccountUpdateInput.
(** The [data] argument of [prisma.account.update].  A field whose value
    is [undefined] is left as it is. *)
Record t := mk { balance : option IntFieldUpdate }.
End AccountUpdateInput.

Inductive PrismaOp :=
  | entry_create (data : EntryCreateInput.t)
  | account_update (data : AccountUpdateInput.t) (where_id : Z).

Inductive OpResult :=
  | created (e : Entry.t)
  | updated (a : Account.t).

Inductive PrismaError :=
  | ValidationError        (* a value that is no member of the column's enum *)
  | ForeignKeyViolation    (* Entry.accountId references no Account *)
  | RecordNotFound         (* account.update: no row with that id *)
  | ValueOutOfRange.       (* a value that does not fit its Int column *)


(** ** The store *)

Module Db.
(** The two tables and the autoincrement sequence of [Entry.id]. *)
Record t := mk {
  accounts : gmap Z Account.t;
  entries : list Entry.t;
  entry_id_seq : Z
}.
End Db.

(** The range of an [Int] column. *)
Definition INT4_MIN : Z := -2147483648.
Definition INT4_MAX : Z := 2147483647.

Definition fitsInt (z : Z) : bool := (INT4_MIN <=? z) && (z <=? INT4_MAX).

Definition checked (z : Z) : option Z := if fitsInt z then Some z else None.

(** The new value of an [Int] column under an update: no result when the
    sum or difference leaves the range of the column; the old value when
    the field is not part of the update. *)
Definition applyUpdate (u : option IntFieldUpdate) (b : Z) : option Z :=
  match u with
  | Some (increment n) => checked (b + n)
  | Some (decrement n) => checked (b - n)
  | None => Some b
  end.

(** One operation against the store.  The result carries the store as the
    operation leaves it inside the running transaction.  An insert whose
    values do not fit their columns, or for which the id sequence is
    exhausted, fails before an id is drawn; an insert that fails on the
    foreign key has drawn its id. *)
Definition exec_op (op : PrismaOp) (db : Db.t) : (PrismaError + OpResult) * Db.t :=
  match op with
  | entry_create d =>
      match DebitCredit_of_wire (EntryCreateInput.debitCredit d) with
      | None => (inl ValidationError, db)
      | Some dc =>
          if fitsInt (EntryCreateInput.transactionId d)
             && fitsInt (EntryCreateInput.amount d)
             && fitsInt (EntryCreateInput.accountId d)
             && fitsInt (Db.entry_id_seq db)
          then
            let e := {| Entry.id := Db.entry_id_seq db;
                        Entry.transactionId := EntryCreateInput.transactionId d;
                        Entry.name := Some (EntryCreateInput.name d);
                        Entry.description := EntryCreateInput.description d;
                        Entry.debitCredit := dc;
                        Entry.amount := EntryCreateInput.amount d;
                        Entry.accountId := EntryCreateInput.accountId d |} in
            let seq' := Db.entry_id_seq db + 1 in
            match Db.accounts db !! EntryCreateInput.accountId d with
            | None =>
                (inl ForeignKeyViolation,
                 {| Db.accounts := Db.accounts db; Db.entries := Db.entries db;
                    Db.entry_id_seq := seq' |})
            | Some _ =>
                (inr (created e),
                 {| Db.accounts := Db.accounts db;
                    Db.entries := Db.entries db ++ [e];
                    Db.entry_id_seq := seq' |})
            end
          else (inl ValueOutOfRange, db)
      end
  | account_update d i =>
      match Db.accounts db !! i with
      | None => (inl RecordNotFound, db)
      | Some a =>
          match applyUpdate (AccountUpdateInput.balance d) (Account.balance a) with
          | None => (inl ValueOutOfRange, db)
          | Some b' =>
              let a' := Account.with_balance b' a in
              (inr (updated a'),
               {| Db.accounts := <[i := a']> (Db.accounts db);
                  Db.entries := Db.entries db;
                  Db.entry_id_seq := Db.entry_id_seq db |})
          end
      end
  end.

(** The operations of a transaction run in list order and stop at the first
    failure. *)
Fixpoint exec_ops (ops : list PrismaOp) (db : Db.t)
  : (PrismaError + list OpResult) * Db.t :=
  match ops with
  | [] => (inr [], db)
  | op :: ops' =>
      match exec_op op db with
      | (inl err, db1) => (inl err, db1)
      | (inr r, db1) =>
          match exec_ops ops' db1 with
          | (inl err, db2) => (inl err, db2)
          | (inr rs, db2) => (inr (r :: rs), db2)
          end
      end
  end.

(** The client checks the arguments of every operation against the schema
    before it sends anything. *)
Definition valid_op (op : PrismaOp) : bool :=
  match op with
  | entry_create d =>
      match DebitCredit_of_wire (EntryCreateInput.debitCredit d) with
      | Some _ => true
      | None => false
      end
  | account_update _ _ => true
  end.

(** A rollback restores the rows of both tables; values drawn from the id
    sequence are not handed back. *)
Definition rollback (snapshot cur : Db.t) : Db.t :=
  {| Db.accounts := Db.accounts snapshot;
     Db.entries := Db.entries snapshot;
     Db.entry_id_seq := Db.entry_id_seq cur |}.

(** [prisma.$transaction]: all operations or none.  When an operation has
    an invalid argument nothing runs at all. *)
Definition transaction (ops : list PrismaOp) (db : Db.t)
  : (PrismaError + list OpResult) * Db.t :=
  if forallb valid_op ops then
    match exec_ops ops db with
    | (inl err, db') => (inl err, rollback db db')
    | (inr rs, db') => (inr rs, db')
    end
  else (inl ValidationError, db).

(** ** The handler *)

(** function getAccountDirection *)
Definition getAccountDirection (accountType debitCredit : string) (amount : Z)
  : option IntFieldUpdate :=
  if String.eqb accountType (AccountType_wire ASSET) then
    Some (if String.eqb debitCredit (DebitCredit_wire DEBIT)
          then increment amount
          else decrement amount)
  else if String.eqb accountType (AccountType_wire LIABILITY) then
    Some (if String.eqb debitCredit (DebitCredit_wire CREDIT)
          then increment amount
          else decrement amount)
  else None.

(** function createEntryTransactions *)
Definition createEntryTransactions (entry : LedgerEntry.t) : list PrismaOp :=
  let amount := LedgerEntry.amount entry in
  let accountId := LedgerEntry.accountId entry in
  let debitCredit := LedgerEntry.debitCredit entry in
  let name := LedgerEntry.name entry in
  let accountType := LedgerEntry.accountType entry in
  let transactionId := LedgerEntry.transactionId entry in
  let createTransactionOperation :=
    entry_create {| EntryCreateInput.transactionId := transactionId;
                    EntryCreateInput.name := name;
                    EntryCreateInput.description := None;
                    EntryCreateInput.debitCredit := debitCredit;
                    EntryCreateInput.amount := amount;
                    EntryCreateInput.accountId := accountId |} in
  let updateAccountOperation :=
    account_update
      {| AccountUpdateInput.balance :=
           getAccountDirection accountType debitCredit amount |}
      accountId in
  [createTransactionOperation; updateAccountOperation].

(** What the caller sees: status 201 with the results of the operations, or
    the error of the rejected [$transaction] promise, which the handler does
    not catch. *)
Inductive Response :=
  | status201 (message : list OpResult)
  | uncaught (err : PrismaError).

(** async function handlePOST *)
Definition handlePOST (body : TransactionBody.t) (db : Db.t) : Response * Db.t :=
  let ledgerEntries := default [] (TransactionBody.ledgerEntries body) in
  let pendingTransactionOperations :=
    flat_map (fun entry => createEntryTransactions entry) ledgerEntries in
  match transaction pendingTransactionOperations db with
  | (inr result, db') => (status201 result, db')
  | (inl err, db') => (uncaught err, db')
  end.

(** ** Vocabulary of the properties *)

Definition batchOf (body : TransactionBody.t) : list LedgerEntry.t :=
  default [] (TransactionBody.ledgerEntries body).

Definition postBatch (batch : list LedgerEntry.t) : TransactionBody.t :=
  {| TransactionBody.name := EmptyString;
     TransactionBody.description := EmptyString;
     TransactionBody.ledgerEntries := Some batch |}.

(** Sum of the amounts of the entries on one side of the batch. *)
Fixpoint sumSide (side : DebitCredit) (batch : list LedgerEntry.t) : Z :=
  match batch with
  | [] => 0
  | e :: es =>
      (if String.eqb (LedgerEntry.debitCredit e) (DebitCredit_wire side)
       then LedgerEntry.amount e else 0) + sumSide side es
  end.

Definition balanced (batch : list LedgerEntry.t) : Prop :=
  sumSide DEBIT batch = sumSide CREDIT batch.

(** What the client accepts for an [AccountType] column. *)
Definition AccountType_of_wire (s : string) : option AccountType :=
  if String.eqb s "ASSET" then Some ASSET
  else if String.eqb s "LIABILITY" then Some LIABILITY
  else None.

(** The rule table of the normal-balance convention. *)
Definition ruleTable (t : AccountType) (d : DebitCredit) (amount : Z) : IntFieldUpdate :=
  match t, d with
  | ASSET, DEBIT => increment amount
  | ASSET, CREDIT => decrement amount
  | LIABILITY, DEBIT => decrement amount
  | LIABILITY, CREDIT => increment amount
  end.

(** The adjustment the rule table gives for a submitted entry, read from
    the account type and the direction the entry carries; none when either
    is outside the table. *)
Definition expectedUpdate (e : LedgerEntry.t) : option IntFieldUpdate :=
  match AccountType_of_wire (LedgerEntry.accountType e),
        DebitCredit_of_wire (LedgerEntry.debitCredit e) with
  | Some t, Some d => Some (ruleTable t d (LedgerEntry.amount e))
  | _, _ => None
  end.

(** The signed change of an adjustment; no adjustment changes nothing. *)
Definition updateDelta (u : option IntFieldUpdate) : Z :=
  match u with
  | Some (increment n) => n
  | Some (decrement n) => - n
  | None => 0
  end.

(** The signed change the rule table gives for one submitted entry. *)
Definition signedDelta (e : LedgerEntry.t) : Z := updateDelta (expectedUpdate e).

(** The algebraic sum of the deltas of the entries that target account [a]. *)
Fixpoint netAdjustment (a : Z) (batch : list LedgerEntry.t) : Z :=
  match batch with
  | [] => 0
  | e :: es =>
      (if Z.eqb (LedgerEntry.accountId e) a then signedDelta e else 0)
      + netAdjustment a es
  end.

(** Every account row moved by the net adjustment of the batch. *)
Definition adjust (batch : list LedgerEntry.t) (accs : gmap Z Account.t)
  : gmap Z Account.t :=
  map_imap (fun a acc =>
    Some (Account.with_balance (Account.balance acc + netAdjustment a batch) acc)) accs.

(** Two conditions the store puts on an entry: its account exists and its
    direction is a member of the enum. *)
Definition postable (accs : gmap Z Account.t) (e : LedgerEntry.t) : Prop :=
  is_Some (accs !! LedgerEntry.accountId e)
  /\ is_Some (DebitCredit_of_wire (LedgerEntry.debitCredit e)).

#[global] Instance postable_dec accs e : Decision (postable accs e).
Proof. unfold postable. apply _. Defined.

(** The submitted numbers of an entry fit their columns. *)
Definition inRange (e : LedgerEntry.t) : Prop :=
  fitsInt (LedgerEntry.transactionId e) = true
  /\ fitsInt (LedgerEntry.amount e) = true
  /\ fitsInt (LedgerEntry.accountId e) = true.

(** Row [x] is the record of submitted entry [e] under id [i]. *)
Definition records (i : Z) (e : LedgerEntry.t) (x : Entry.t) : Prop :=
  Entry.id x = i
  /\ Entry.transactionId x = LedgerEntry.transactionId e
  /\ Entry.name x = Some (LedgerEntry.name e)
  /\ DebitCredit_wire (Entry.debitCredit x) = LedgerEntry.debitCredit e
  /\ Entry.amount x = LedgerEntry.amount e
  /\ Entry.accountId x = LedgerEntry.accountId e.

(** One row per submitted entry, in order, with consecutive ids. *)
Fixpoint records_from (i : Z) (batch : list LedgerEntry.t) (xs : list Entry.t) : Prop :=
  match batch, xs with
  | [], [] => True
  | e :: es, x :: xs' => records i e x /\ records_from (i + 1) es xs'
  | _, _ => False
  end.

Definition createdEntries (rs : list OpResult) : list Entry.t :=
  omap (fun r => match r with created e => Some e | updated _ => None end) rs.

Definition updatedAccounts (rs : list OpResult) : list Account.t :=
  omap (fun r => match r with updated a => Some a | created _ => None end) rs.

Definition accepted (r : Response) : Prop :=
  match r with status201 _ => True | uncaught _ => False end.

(** The operation results of an accepted posting. *)
Definition resultsOf (r : Response) : list OpResult :=
  match r with status201 rs => rs | uncaught _ => [] end.

Definition balanceOf (db : Db.t) (a : Z) : option Z :=
  Account.balance <$> Db.accounts db !! a.

(** The balance adjustments the pending operations hold for account [a]. *)
Fixpoint adjustmentsFor (a : Z) (ops : list PrismaOp) : list (option IntFieldUpdate) :=
  match ops with
  | [] => []
  | entry_create _ :: ops' => adjustmentsFor a ops'
  | account_update d i :: ops' =>
      if Z.eqb i a then AccountUpdateInput.balance d :: adjustmentsFor a ops'
      else adjustmentsFor a ops'
  end.

Definition entriesFor (a : Z) (batch : list LedgerEntry.t) : list LedgerEntry.t :=
  filter (fun e => LedgerEntry.accountId e = a) batch.

(** Relabelling the stored account types: row [a] gets type [f a]. *)
Definition retype_db (f : Z -> AccountType) (db : Db.t) : Db.t :=
  {| Db.accounts :=
       map_imap (fun a acc => Some (Account.with_accountType (f a) acc)) (Db.accounts db);
     Db.entries := Db.entries db;
     Db.entry_id_seq := Db.entry_id_seq db |}.

(** Two submitted entries that differ at most in their [accountType]. *)
Definition sameButAccountType (e1 e2 : LedgerEntry.t) : Prop :=
  LedgerEntry.transactionId e1 = LedgerEntry.transactionId e2
  /\ LedgerEntry.amount e1 = LedgerEntry.amount e2
  /\ LedgerEntry.accountId e1 = LedgerEntry.accountId e2
  /\ LedgerEntry.debitCredit e1 = LedgerEntry.debitCredit e2
  /\ LedgerEntry.name e1 = LedgerEntry.name e2.

(** A submitted entry, field by field. *)
Definition entryOn (transactionId accountId : Z) (accountType debitCredit name : string)
    (amount : Z) : LedgerEntry.t :=
  {| LedgerEntry.transactionId := transactionId;
     LedgerEntry.amount := amount;
     LedgerEntry.accountId := accountId;
     LedgerEntry.debitCredit := debitCredit;
     LedgerEntry.name := name;
     LedgerEntry.accountType := accountType |}.

(** The row the store writes for a submitted entry under id [i]. *)
Definition rowOf (i : Z) (d : DebitCredit) (e : LedgerEntry.t) : Entry.t :=
  {| Entry.id := i;
     Entry.transactionId := LedgerEntry.transactionId e;
     Entry.name := Some (LedgerEntry.name e);
     Entry.description := None;
     Entry.debitCredit := d;
     Entry.amount := LedgerEntry.amount e;
     Entry.accountId := LedgerEntry.accountId e |}.

(** ** Scenarios *)

(** The accounts of the README's walk-through. *)
Definition creditCard : Account.t :=
  {| Account.id := 110472; Account.name := Some "Credit Card";
     Account.accountType := LIABILITY; Account.balance := 20000 |}.
Definition checkings1 : Account.t :=
  {| Account.id := 129301; Account.name := Some "Checkings";
     Account.accountType := ASSET; Account.balance := 20000 |}.
Definition savings : Account.t :=
  {| Account.id := 190428; Account.name := Some "Savings";
     Account.accountType := ASSET; Account.balance := 20000 |}.
Definition checkings2 : Account.t :=
  {| Account.id := 294329; Account.name := Some "Checkings";
     Account.accountType := ASSET; Account.balance := 20000 |}.

Definition readme_db : Db.t :=
  {| Db.accounts :=
       <[110472 := creditCard]> (<[129301 := checkings1]>
         (<[190428 := savings]> (<[294329 := checkings2]> ∅)));
     Db.entries := [];
     Db.entry_id_seq := 15 |}.

Definition draft (accountId : Z) (accountType debitCredit : string) (amount : Z)
  : LedgerEntry.t :=
  {| LedgerEntry.transactionId := 1172;
     LedgerEntry.amount := amount;
     LedgerEntry.accountId := accountId;
     LedgerEntry.debitCredit := debitCredit;
     LedgerEntry.name := "Some ledger entry";
     LedgerEntry.accountType := accountType |}.

Definition row (id accountId : Z) (debitCredit : DebitCredit) (amount : Z) : Entry.t :=
  {| Entry.id := id; Entry.transactionId := 1172;
     Entry.name := Some "Some ledger entry"; Entry.description := None;
     Entry.debitCredit := debitCredit; Entry.amount := amount;
     Entry.accountId := accountId |}.

(** The README's request: move 1234 from Savings to Checkings. *)
Definition readme_body : TransactionBody.t :=
  {| TransactionBody.name := "Albertson's transaction";
     TransactionBody.description := "Lots of groceries";
     TransactionBody.ledgerEntries :=
       Some [draft 294329 "ASSET" "DEBIT" 1234; draft 190428 "ASSET" "CREDIT" 1234] |}.

(** Debit 100 against credit 50. *)
Definition unbalanced_batch : list LedgerEntry.t :=
  [draft 294329 "ASSET" "DEBIT" 100; draft 190428 "ASSET" "CREDIT" 50].

(** A single credit of 500 to a liability account with balance 0. *)
Definition loan : Account.t :=
  {| Account.id := 7; Account.name := Some "Loan";
     Account.accountType := LIABILITY; Account.balance := 0 |}.
Definition loan_db : Db.t :=
  {| Db.accounts := <[7 := loan]> ∅; Db.entries := []; Db.entry_id_seq := 1 |}.
Definition single_batch : list LedgerEntry.t := [draft 7 "LIABILITY" "CREDIT" 500].

(** Balanced two-entry batches with amounts that are not positive. *)
Definition zero_batch : list LedgerEntry.t :=
  [draft 294329 "ASSET" "DEBIT" 0; draft 190428 "ASSET" "CREDIT" 0].
Definition negative_batch : list LedgerEntry.t :=
  [draft 294329 "ASSET" "DEBIT" (-100); draft 190428 "ASSET" "CREDIT" (-100)].

(** The README's request with the first entry relabelled as a liability. *)
Definition relabelled_batch : list LedgerEntry.t :=
  [draft 294329 "LIABILITY" "DEBIT" 1234; draft 190428 "ASSET" "CREDIT" 1234].

(** Two debits to one account against one credit. *)
Definition split_batch : list LedgerEntry.t :=
  [draft 294329 "ASSET" "DEBIT" 100; draft 294329 "ASSET" "DEBIT" 200;
   draft 190428 "ASSET" "CREDIT" 300].

(** An account type outside the schema's enum. *)
Definition equity_batch : list LedgerEntry.t :=
  [draft 294329 "EQUITY" "DEBIT" 100; draft 190428 "ASSET" "CREDIT" 100].


(** An asset account at the top of the Int range, beside an empty one. *)
Definition vault : Account.t :=
  {| Account.id := 1; Account.name := Some "Vault";
     Account.accountType := ASSET; Account.balance := 2147483647 |}.
Definition till : Account.t :=
  {| Account.id := 2; Account.name := Some "Till";
     Account.accountType := ASSET; Account.balance := 0 |}.
Definition vault_db : Db.t :=
  {| Db.accounts := <[1 := vault]> (<[2 := till]> ∅);
     Db.entries := []; Db.entry_id_seq := 1 |}.

(** One more unit into the full account. *)
Definition overflow_batch : list LedgerEntry.t :=
  [draft 1 "ASSET" "DEBIT" 1; draft 2 "ASSET" "CREDIT" 1].

(** Entries that carry LIABILITY against accounts stored as ASSET. *)
Definition mislabelled_batch : list LedgerEntry.t :=
  [draft 294329 "LIABILITY" "DEBIT" 500; draft 190428 "LIABILITY" "CREDIT" 500].

(** ** The other handlers *)

(** The order in which a query without [orderBy] returns its rows: some
    rearrangement of them, chosen by the database. *)
Record RowOrder := mkRowOrder {
  arrange : list Entry.t -> list Entry.t;
  arrange_perm : forall l, arrange l ≡ₚ l
}.

Definition insertionOrder : RowOrder :=
  {| arrange := fun l => l; arrange_perm := fun l => Permutation_refl l |}.

Definition reverseOrder : RowOrder :=
  {| arrange := fun l => rev l;
     arrange_perm := fun l => Permutation_sym (Permutation_rev l) |}.

(** [src/pages/api/transaction/index.ts], besides [handlePOST]. *)

(** async function handleGET: [prisma.entry.findMany()]. *)
Definition handleGET (order : RowOrder) (db : Db.t) : list Entry.t :=
  arrange order (Db.entries db).

Inductive TransactionReply :=
  | posted (r : Response)
  | listed (entries : list Entry.t)
  | notImplemented.

(** export default async function handle: the [switch] on [req.method]. *)
Definition handle (order : RowOrder) (method : string) (body : TransactionBody.t)
    (db : Db.t) : TransactionReply * Db.t :=
  if String.eqb method "POST" then
    match handlePOST body db with (r, db') => (posted r, db') end
  else if String.eqb method "GET" then (listed (handleGET order db), db)
  else (notImplemented, db).

(** The read-only routes answer with a JSON document or with status 501. *)
Inductive ReadReply (A : Type) :=
  | json (a : A)
  | status501.
Arguments json {A} a.
Arguments status501 {A}.

(** In the three [:id] routes the argument [id] is the value of
    [Number(req.query.id)]; a query that is not the numeral of an integer is
    outside the model. *)

Module TransactionId.
(** GET /api/transaction/:id *)
Definition handleGET (order : RowOrder) (transactionId : Z) (db : Db.t) : list Entry.t :=
  arrange order
    (filter (fun x => Entry.transactionId x = transactionId) (Db.entries db)).

Definition handle (order : RowOrder) (method : string) (transactionId : Z) (db : Db.t)
  : ReadReply (list Entry.t) :=
  if String.eqb method "GET" then json (handleGET order transactionId db)
  else status501.
End TransactionId.

Module EntryId.
(** GET /api/entry/:id, [src/pages/api/entry/[id].ts] *)
Definition handleGET (order : RowOrder) (entryId : Z) (db : Db.t) : list Entry.t :=
  arrange order (filter (fun x => Entry.id x = entryId) (Db.entries db)).

Definition handle (order : RowOrder) (method : string) (entryId : Z) (db : Db.t)
  : ReadReply (list Entry.t) :=
  if String.eqb method "GET" then json (handleGET order entryId db) else status501.
End EntryId.

Module AccountId.
(** GET /api/account/:id, [src/pages/api/account/[id].ts]:
    [findUnique] with [include: { entries: true }]; null when no account
    has that id. *)
Definition handleGET (order : RowOrder) (accountId : Z) (db : Db.t)
  : option (Account.t * list Entry.t) :=
  (fun a => (a, arrange order
                  (filter (fun x => Entry.accountId x = accountId) (Db.entries db))))
    <$> Db.accounts db !! accountId.

Definition handle (order : RowOrder) (method : string) (accountId : Z) (db : Db.t)
  : ReadReply (option (Account.t * list Entry.t)) :=
  if String.eqb method "GET" then json (handleGET order accountId db) else status501.
End AccountId.

Module Store.
(** The database with the autoincrement sequence of [Account.id]. *)
Record t := mk {
  db : Db.t;
  account_id_seq : Z
}.
End Store.

Module AccountCreateInput.
(** The [data] argument of [prisma.account.create].  Every column has a
    default: the id comes from the sequence, the name is null, the type is
    ASSET and the balance is 0. *)
Record t := mk {
  id : option Z;
  name : option string;
  accountType : option string;
  balance : option Z
}.
End AccountCreateInput.

Inductive AccountCreateError :=
  | InvalidAccountType          (* a value that is no member of AccountType *)
  | UniqueConstraintViolation.  (* an Account with that id exists *)

(** [prisma.account.create], a single statement.  An id drawn from the
    sequence stays drawn when the insert fails; an id given by the caller
    does not move the sequence. *)
Definition account_create (d : AccountCreateInput.t) (st : Store.t)
  : (AccountCreateError + Account.t) * Store.t :=
  match (match AccountCreateInput.accountType d with
         | None => Some ASSET
         | Some s => AccountType_of_wire s
         end) with
  | None => (inl InvalidAccountType, st)
  | Some ty =>
      let db := Store.db st in
      let i := default (Store.account_id_seq st) (AccountCreateInput.id d) in
      let seq' := match AccountCreateInput.id d with
                  | Some _ => Store.account_id_seq st
                  | None => Store.account_id_seq st + 1
                  end in
      let a := {| Account.id := i;
                  Account.name := AccountCreateInput.name d;
                  Account.accountType := ty;
                  Account.balance := default 0 (AccountCreateInput.balance d) |} in
      match Db.accounts db !! i with
      | Some _ =>
          (inl UniqueConstraintViolation,
           {| Store.db := db; Store.account_id_seq := seq' |})
      | None =>
          (inr a,
           {| Store.db := {| Db.accounts := <[i := a]> (Db.accounts db);
                             Db.entries := Db.entries db;
                             Db.entry_id_seq := Db.entry_id_seq db |};
              Store.account_id_seq := seq' |})
      end
  end.

Module AccountBody.
(** The body of POST /api/account.  The handler reads [id], [name] and
    [accountType]; [balance] stands for an opening balance a caller may put
    in the JSON object. *)
Record t := mk {
  id : option Z;
  name : option string;
  accountType : option string;
  balance : option Z
}.
End AccountBody.

Module AccountIndex.
(** [src/pages/api/account/index.ts] *)

Inductive Reply :=
  | account (a : Account.t)
  | failed (err : AccountCreateError)
  | accounts (l : list Account.t)
  | notImplemented.

(** async function handlePOST *)
Definition handlePOST (body : AccountBody.t) (st : Store.t) : Reply * Store.t :=
  let id := AccountBody.id body in
  let name := AccountBody.name body in
  let accountType := AccountBody.accountType body in
  match account_create {| AccountCreateInput.id := id;
                          AccountCreateInput.name := name;
                          AccountCreateInput.accountType := accountType;
                          AccountCreateInput.balance := None |} st with
  | (inr a, st') => (account a, st')
  | (inl err, st') => (failed err, st')
  end.

(** async function handleGET: [prisma.account.findMany()].  The order of
    the rows is not fixed; the properties below use membership only. *)
Definition handleGET (st : Store.t) : list Account.t :=
  snd <$> map_to_list (Db.accounts (Store.db st)).

Definition handle (method : string) (body : AccountBody.t) (st : Store.t)
  : Reply * Store.t :=
  if String.eqb method "POST" then handlePOST body st
  else if String.eqb method "GET" then (accounts (handleGET st), st)
  else (notImplemented, st).
End AccountIndex.

(** ** Vocabulary of the further properties *)

(** The rows of the store are consistent: the account stored under an id
    carries that id, every entry references an existing account, and the
    entry ids are distinct and below the sequence. *)
Definition db_ok (db : Db.t) : Prop :=
  (forall i a, Db.accounts db !! i = Some a -> Account.id a = i)
  /\ Forall (fun x => is_Some (Db.accounts db !! Entry.accountId x)) (Db.entries db)
  /\ Forall (fun x => Entry.id x < Db.entry_id_seq db) (Db.entries db)
  /\ NoDup (Entry.id <$> Db.entries db).

(** The signed effect of a written row on an account of type [t]. *)
Definition rowEffect (t : AccountType) (x : Entry.t) : Z :=
  updateDelta (Some (ruleTable t (Entry.debitCredit x) (Entry.amount x))).

(** The balance of account [a] as the entry history gives it. *)
Fixpoint projection (t : AccountType) (a : Z) (xs : list Entry.t) : Z :=
  match xs with
  | [] => 0
  | x :: xs' =>
      (if Z.eqb (Entry.accountId x) a then rowEffect t x else 0) + projection t a xs'
  end.

(** Every balance is the projection of the account's entries. *)
Definition balances_projected (db : Db.t) : Prop :=
  forall a acc, Db.accounts db !! a = Some acc ->
    Account.balance acc = projection (Account.accountType acc) a (Db.entries db).

(** Every entry of the batch carries the stored type of its account. *)
Definition typed (accs : gmap Z Account.t) (e : LedgerEntry.t) : Prop :=
  exists acc, accs !! LedgerEntry.accountId e = Some acc
    /\ LedgerEntry.accountType e = AccountType_wire (Account.accountType acc).

(** Assets minus liabilities. *)
Definition signedBalance (acc : Account.t) : Z :=
  match Account.accountType acc with
  | ASSET => Account.balance acc
  | LIABILITY => - Account.balance acc
  end.

Definition netPosition (accs : gmap Z Account.t) : Z :=
  map_fold (fun _ acc s => signedBalance acc + s) 0 accs.


(** The store after the README's posting, and the store it lives in. *)
Definition posted_db : Db.t := snd (handlePOST readme_body readme_db).
Definition readme_store : Store.t :=
  {| Store.db := readme_db; Store.account_id_seq := 1 |}.
Definition loan_store : Store.t :=
  {| Store.db := loan_db; Store.account_id_seq := 8 |}.


(** ** Auxiliary facts *)

Lemma fitsInt_spec z : fitsInt z = true <-> INT4_MIN <= z <= INT4_MAX.
Proof. unfold fitsInt. rewrite andb_true_iff, !Z.leb_le. reflexivity. Qed.

Lemma DebitCredit_of_wire_Some s dc :
  DebitCredit_of_wire s = Some dc <-> DebitCredit_wire dc = s.
Proof.
  unfold DebitCredit_of_wire. split.
  - destruct (String.eqb_spec s "DEBIT") as [->|Hd]; [intros [= <-]; reflexivity|].
    destruct (String.eqb_spec s "CREDIT") as [->|Hc]; [intros [= <-]; reflexivity|].
    discriminate.
  - intros <-. destruct dc; reflexivity.
Qed.

Lemma DebitCredit_of_wire_wire dc : DebitCredit_of_wire (DebitCredit_wire dc) = Some dc.
Proof. destruct dc; reflexivity. Qed.

Lemma AccountType_of_wire_wire t : AccountType_of_wire (AccountType_wire t) = Some t.
Proof. destruct t; reflexivity. Qed.

Lemma with_balance_twice b1 b2 acc :
  Account.with_balance b2 (Account.with_balance b1 acc) = Account.with_balance b2 acc.
Proof. reflexivity. Qed.

Lemma with_balance_same acc : Account.with_balance (Account.balance acc) acc = acc.
Proof. destruct acc; reflexivity. Qed.

(** On a direction of the enum the resolver agrees with the rule table read
    from the carried account type. *)
Lemma getAccountDirection_expected e dc :
  DebitCredit_of_wire (LedgerEntry.debitCredit e) = Some dc ->
  getAccountDirection (LedgerEntry.accountType e) (LedgerEntry.debitCredit e)
    (LedgerEntry.amount e)
  = expectedUpdate e.
Proof.
  intros Hdc. unfold expectedUpdate. rewrite Hdc.
  apply DebitCredit_of_wire_Some in Hdc. rewrite <- Hdc.
  unfold getAccountDirection, AccountType_of_wire. cbn [AccountType_wire].
  destruct (String.eqb (LedgerEntry.accountType e) "ASSET"); [destruct dc; reflexivity|].
  destruct (String.eqb (LedgerEntry.accountType e) "LIABILITY"); [destruct dc|];
    reflexivity.
Qed.

Lemma applyUpdate_delta u b z : applyUpdate u b = Some z -> z = b + updateDelta u.
Proof.
  destruct u as [[n|n]|]; cbn; unfold checked.
  - destruct (fitsInt (b + n)); [intros [= <-]; reflexivity|discriminate].
  - destruct (fitsInt (b - n)); [intros [= <-]; lia|discriminate].
  - intros [= <-]. lia.
Qed.

Lemma applyUpdate_fits u b :
  fitsInt (b + updateDelta u) = true -> applyUpdate u b = Some (b + updateDelta u).
Proof.
  destruct u as [[n|n]|]; cbn; unfold checked; intros H.
  - rewrite H. reflexivity.
  - replace (b - n) with (b + - n) by lia. rewrite H. reflexivity.
  - rewrite Z.add_0_r. reflexivity.
Qed.

Lemma lookup_adjust batch (accs : gmap Z Account.t) a :
  adjust batch accs !! a =
  (fun acc => Account.with_balance (Account.balance acc + netAdjustment a batch) acc)
    <$> accs !! a.
Proof. unfold adjust. rewrite map_lookup_imap. destruct (accs !! a); reflexivity. Qed.

Lemma adjust_nil (accs : gmap Z Account.t) : adjust [] accs = accs.
Proof.
  apply map_eq; intros a. rewrite lookup_adjust.
  destruct (accs !! a) as [acc|]; simpl; [|reflexivity].
  rewrite Z.add_0_r, with_balance_same. reflexivity.
Qed.

(** One entry's update followed by the adjustment of the rest of the batch
    is the adjustment of the whole batch. *)
Lemma adjust_cons e es (accs : gmap Z Account.t) acc :
  accs !! LedgerEntry.accountId e = Some acc ->
  adjust es
    (<[LedgerEntry.accountId e :=
         Account.with_balance (Account.balance acc + signedDelta e) acc]> accs)
  = adjust (e :: es) accs.
Proof.
  intros Hacc. apply map_eq; intros a. rewrite !lookup_adjust. simpl.
  destruct (Z.eqb_spec (LedgerEntry.accountId e) a) as [<-|Hne].
  - rewrite lookup_insert_eq, Hacc. simpl. f_equal.
    rewrite with_balance_twice. f_equal. lia.
  - rewrite lookup_insert_ne by done.
    destruct (accs !! a); simpl; [|reflexivity]. do 2 f_equal.
Qed.

Lemma postable_insert (accs : gmap Z Account.t) i acc acc' e :
  accs !! i = Some acc ->
  postable (<[i := acc']> accs) e <-> postable accs e.
Proof.
  intros Hi. unfold postable.
  destruct (decide (i = LedgerEntry.accountId e)) as [<-|Hne].
  - rewrite lookup_insert_eq, Hi. split; intros [_ ?]; split; eauto.
  - rewrite lookup_insert_ne by done. reflexivity.
Qed.

(** The client-side check of a batch is the check of its directions. *)
Lemma valid_batch batch :
  forallb valid_op (flat_map createEntryTransactions batch) = true
  <-> Forall (fun e => is_Some (DebitCredit_of_wire (LedgerEntry.debitCredit e))) batch.
Proof.
  induction batch as [|e es IH]; cbn; [split; [constructor|reflexivity]|].
  rewrite Forall_cons, <- IH.
  destruct (DebitCredit_of_wire (LedgerEntry.debitCredit e)) as [dc|]; cbn.
  - split; [intros H; split; [eauto|exact H]|intros [_ H]; exact H].
  - split; [discriminate|intros [[x Hx] _]; discriminate].
Qed.

(** The two operations of one entry, run against the store. *)
Lemma exec_entry_run e ops db :
  exec_ops (createEntryTransactions e ++ ops) db =
  match DebitCredit_of_wire (LedgerEntry.debitCredit e) with
  | None => (inl ValidationError, db)
  | Some dc =>
      if fitsInt (LedgerEntry.transactionId e) && fitsInt (LedgerEntry.amount e)
         && fitsInt (LedgerEntry.accountId e) && fitsInt (Db.entry_id_seq db)
      then
        match Db.accounts db !! LedgerEntry.accountId e with
        | None =>
            (inl ForeignKeyViolation,
             {| Db.accounts := Db.accounts db; Db.entries := Db.entries db;
                Db.entry_id_seq := Db.entry_id_seq db + 1 |})
        | Some acc =>
            let x := rowOf (Db.entry_id_seq db) dc e in
            match applyUpdate (expectedUpdate e) (Account.balance acc) with
            | None =>
                (inl ValueOutOfRange,
                 {| Db.accounts := Db.accounts db;
                    Db.entries := Db.entries db ++ [x];
                    Db.entry_id_seq := Db.entry_id_seq db + 1 |})
            | Some b' =>
                let acc' := Account.with_balance b' acc in
                match exec_ops ops
                        {| Db.accounts :=
                             <[LedgerEntry.accountId e := acc']> (Db.accounts db);
                           Db.entries := Db.entries db ++ [x];
                           Db.entry_id_seq := Db.entry_id_seq db + 1 |} with
                | (inl err, db2) => (inl err, db2)
                | (inr rs, db2) => (inr (created x :: updated acc' :: rs), db2)
                end
            end
        end
      else (inl ValueOutOfRange, db)
  end.
Proof.
  destruct (DebitCredit_of_wire (LedgerEntry.debitCredit e)) as [dc|] eqn:Hdc.
  2:{ cbn. rewrite Hdc. reflexivity. }
  rewrite <- (getAccountDirection_expected e dc Hdc).
  cbn -[fitsInt]. rewrite Hdc.
  destruct (fitsInt (LedgerEntry.transactionId e) && fitsInt (LedgerEntry.amount e)
            && fitsInt (LedgerEntry.accountId e) && fitsInt (Db.entry_id_seq db));
    [|reflexivity].
  destruct (Db.accounts db !! LedgerEntry.accountId e) as [acc|] eqn:Hacc;
    [|reflexivity].
  cbn -[fitsInt]. rewrite Hacc.
  destruct (applyUpdate _ (Account.balance acc)) as [b'|]; [|reflexivity].
  cbn -[fitsInt]. destruct (exec_ops ops _) as [[err|rs] db2]; reflexivity.
Qed.

(** What a batch that runs to the end has done. *)
Lemma exec_batch_success batch : forall db rs db',
  exec_ops (flat_map createEntryTransactions batch) db = (inr rs, db') ->
  Db.accounts db' = adjust batch (Db.accounts db)
  /\ Db.entries db' = Db.entries db ++ createdEntries rs
  /\ records_from (Db.entry_id_seq db) batch (createdEntries rs)
  /\ Forall (fun x => Entry.description x = None) (createdEntries rs)
  /\ length (updatedAccounts rs) = length batch
  /\ Forall (postable (Db.accounts db)) batch
  /\ Forall inRange batch.
Proof.
  induction batch as [|e es IH]; intros db rs db' Hrun.
  - cbn in Hrun. injection Hrun as <- <-. cbn.
    rewrite adjust_nil, app_nil_r. repeat split; constructor.
  - cbn [flat_map] in Hrun. rewrite exec_entry_run in Hrun.
    destruct (DebitCredit_of_wire (LedgerEntry.debitCredit e)) as [dc|] eqn:Hdc;
      [|discriminate].
    destruct (fitsInt (LedgerEntry.transactionId e) && fitsInt (LedgerEntry.amount e)
              && fitsInt (LedgerEntry.accountId e) && fitsInt (Db.entry_id_seq db))
      eqn:Hfit; [|discriminate].
    destruct (Db.accounts db !! LedgerEntry.accountId e) as [acc|] eqn:Hacc;
      [|discriminate].
    destruct (applyUpdate (expectedUpdate e) (Account.balance acc)) as [b'|] eqn:Hup;
      [|discriminate].
    cbn zeta in Hrun.
    destruct (exec_ops _ _) as [[err|rs0] db2] eqn:Hrest; [discriminate|].
    injection Hrun as <- <-.
    apply IH in Hrest as (Haccs & Hents & Hrec & Hdesc & Hlen & Hpost & Hrange).
    cbn [Db.accounts Db.entries Db.entry_id_seq] in *.
    apply applyUpdate_delta in Hup. fold (signedDelta e) in Hup. subst b'.
    rewrite !andb_true_iff in Hfit. destruct Hfit as [[[Ht Ha] Hi] _].
    split; [|split; [|split; [|split; [|split; [|split]]]]].
    + rewrite Haccs. apply adjust_cons. exact Hacc.
    + rewrite Hents. cbn. rewrite <- app_assoc. reflexivity.
    + cbn. split; [|exact Hrec].
      repeat split. cbn. apply DebitCredit_of_wire_Some. exact Hdc.
    + cbn. constructor; [reflexivity|exact Hdesc].
    + cbn. f_equal. exact Hlen.
    + constructor; [split; eauto|].
      eapply Forall_impl; [exact Hpost|]. intros e' He'.
      apply (postable_insert _ _ _ _ _ Hacc) in He'. exact He'.
    + constructor; [repeat split; assumption|exact Hrange].
Qed.

Lemma handlePOST_unfold body db :
  handlePOST body db =
  if forallb valid_op (flat_map createEntryTransactions (batchOf body)) then
    match exec_ops (flat_map createEntryTransactions (batchOf body)) db with
    | (inl err, db') => (uncaught err, rollback db db')
    | (inr rs, db') => (status201 rs, db')
    end
  else (uncaught ValidationError, db).
Proof.
  unfold handlePOST, transaction. fold (batchOf body).
  change (fun entry => createEntryTransactions entry) with createEntryTransactions.
  destruct (forallb valid_op _); [|reflexivity].
  destruct (exec_ops _ db) as [[err|rs] db']; reflexivity.
Qed.

(** What an accepted posting has done. *)
Lemma handlePOST_accepted body db rs db' :
  handlePOST body db = (status201 rs, db') ->
  Db.accounts db' = adjust (batchOf body) (Db.accounts db)
  /\ Db.entries db' = Db.entries db ++ createdEntries rs
  /\ records_from (Db.entry_id_seq db) (batchOf body) (createdEntries rs)
  /\ Forall (fun x => Entry.description x = None) (createdEntries rs)
  /\ length (updatedAccounts rs) = length (batchOf body)
  /\ Forall (postable (Db.accounts db)) (batchOf body)
  /\ Forall inRange (batchOf body).
Proof.
  rewrite handlePOST_unfold. destruct (forallb valid_op _); [|discriminate].
  destruct (exec_ops _ db) as [[err|rs0] db0] eqn:Hrun; [discriminate|].
  intros [= <- <-]. exact (exec_batch_success _ _ _ _ Hrun).
Qed.

(** A posting that is not accepted leaves the rows of both tables. *)
Lemma handlePOST_rejected body db err db' :
  handlePOST body db = (uncaught err, db') ->
  Db.accounts db' = Db.accounts db /\ Db.entries db' = Db.entries db.
Proof.
  rewrite handlePOST_unfold. destruct (forallb valid_op _).
  - destruct (exec_ops _ db) as [[err0|rs0] db0]; [|discriminate].
    intros [= <- <-]. split; reflexivity.
  - intros [= <- <-]. split; reflexivity.
Qed.

Lemma accepted_run body db :
  accepted (fst (handlePOST body db)) ->
  exists rs db', handlePOST body db = (status201 rs, db').
Proof.
  destruct (handlePOST body db) as [[rs|err] db']; cbn; [eauto|contradiction].
Qed.

Lemma rejected_run body db :
  ~ accepted (fst (handlePOST body db)) ->
  exists err db', handlePOST body db = (uncaught err, db').
Proof.
  destruct (handlePOST body db) as [[rs|err] db']; cbn; [tauto|eauto].
Qed.

Lemma balanceOf_adjust batch db db' a :
  Db.accounts db' = adjust batch (Db.accounts db) ->
  balanceOf db' a = (fun b => b + netAdjustment a batch) <$> balanceOf db a.
Proof.
  intros H. unfold balanceOf. rewrite H, lookup_adjust.
  destruct (Db.accounts db !! a); reflexivity.
Qed.

Lemma records_from_length batch : forall i xs,
  records_from i batch xs -> length xs = length batch.
Proof.
  induction batch as [|e es IH]; intros i [|x xs] H; cbn in *; try tauto.
  f_equal. apply (IH (i + 1)). tauto.
Qed.

(** The rows of a batch are determined by the batch and the first id. *)
Lemma records_from_unique batch : forall i xs ys,
  records_from i batch xs -> records_from i batch ys ->
  Forall (fun x => Entry.description x = None) xs ->
  Forall (fun x => Entry.description x = None) ys ->
  xs = ys.
Proof.
  induction batch as [|e es IH]; intros i [|x xs] [|y ys] Hx Hy Dx Dy;
    cbn in Hx, Hy; try tauto.
  apply Forall_cons in Dx as [Dx Dxs]. apply Forall_cons in Dy as [Dy Dys].
  destruct Hx as [(Hx1 & Hx2 & Hx3 & Hx4 & Hx5 & Hx6) Hxs].
  destruct Hy as [(Hy1 & Hy2 & Hy3 & Hy4 & Hy5 & Hy6) Hys].
  f_equal; [|exact (IH _ _ _ Hxs Hys Dxs Dys)].
  destruct x as [x1 x2 x3 x4 x5 x6 x7], y as [y1 y2 y3 y4 y5 y6 y7]. cbn in *.
  assert (x5 = y5) by (destruct x5, y5; cbn in *; congruence).
  congruence.
Qed.

Lemma records_from_Exists (P : Z -> Prop) batch : forall i xs,
  records_from i batch xs ->
  Exists (fun e => P (LedgerEntry.amount e)) batch ->
  Exists (fun x => P (Entry.amount x)) xs.
Proof.
  induction batch as [|e es IH]; intros i [|x xs] Hrec Hex; cbn in Hrec; try tauto.
  - inversion Hex.
  - destruct Hrec as [Hx Hrest]. apply Exists_cons in Hex as [He|Hes].
    + left. destruct Hx as (_ & _ & _ & _ & -> & _). exact He.
    + right. exact (IH _ _ Hrest Hes).
Qed.

(** A batch of one entry that meets the conditions of the store. *)
Lemma post_single body db e acc dc :
  batchOf body = [e] ->
  Db.accounts db !! LedgerEntry.accountId e = Some acc ->
  DebitCredit_of_wire (LedgerEntry.debitCredit e) = Some dc ->
  inRange e ->
  fitsInt (Db.entry_id_seq db) = true ->
  fitsInt (Account.balance acc + signedDelta e) = true ->
  let x := rowOf (Db.entry_id_seq db) dc e in
  let acc' := Account.with_balance (Account.balance acc + signedDelta e) acc in
  handlePOST body db
  = (status201 [created x; updated acc'],
     {| Db.accounts := <[LedgerEntry.accountId e := acc']> (Db.accounts db);
        Db.entries := Db.entries db ++ [x];
        Db.entry_id_seq := Db.entry_id_seq db + 1 |}).
Proof.
  intros Hbatch Hacc Hdc (Ht & Ha & Hi) Hseq Hfit. cbn zeta.
  rewrite handlePOST_unfold, Hbatch.
  rewrite (proj2 (valid_batch [e])) by (constructor; [eauto|constructor]).
  cbn [flat_map]. rewrite exec_entry_run, Hdc, Ht, Ha, Hi, Hseq, Hacc. cbn [andb].
  unfold signedDelta in *. rewrite (applyUpdate_fits _ _ Hfit). reflexivity.
Qed.

(** A batch of two entries on two accounts that meets the conditions of the
    store. *)
Lemma post_pair body db ea eb accA accB da db0 :
  batchOf body = [ea; eb] ->
  LedgerEntry.accountId ea <> LedgerEntry.accountId eb ->
  Db.accounts db !! LedgerEntry.accountId ea = Some accA ->
  Db.accounts db !! LedgerEntry.accountId eb = Some accB ->
  DebitCredit_of_wire (LedgerEntry.debitCredit ea) = Some da ->
  DebitCredit_of_wire (LedgerEntry.debitCredit eb) = Some db0 ->
  inRange ea -> inRange eb ->
  fitsInt (Db.entry_id_seq db) = true ->
  fitsInt (Db.entry_id_seq db + 1) = true ->
  fitsInt (Account.balance accA + signedDelta ea) = true ->
  fitsInt (Account.balance accB + signedDelta eb) = true ->
  let xa := rowOf (Db.entry_id_seq db) da ea in
  let xb := rowOf (Db.entry_id_seq db + 1) db0 eb in
  let accA' := Account.with_balance (Account.balance accA + signedDelta ea) accA in
  let accB' := Account.with_balance (Account.balance accB + signedDelta eb) accB in
  handlePOST body db
  = (status201 [created xa; updated accA'; created xb; updated accB'],
     {| Db.accounts :=
          <[LedgerEntry.accountId eb := accB']>
            (<[LedgerEntry.accountId ea := accA']> (Db.accounts db));
        Db.entries := Db.entries db ++ [xa; xb];
        Db.entry_id_seq := Db.entry_id_seq db + 1 + 1 |}).
Proof.
  intros Hbatch Hne HA HB Hda Hdb (Hta & Haa & Hia) (Htb & Hab & Hib) Hs0 Hs1 HfA HfB.
  cbn zeta. rewrite handlePOST_unfold, Hbatch.
  rewrite (proj2 (valid_batch [ea; eb]))
    by (constructor; [eauto|constructor; [eauto|constructor]]).
  cbn [flat_map]. rewrite exec_entry_run, Hda, Hta, Haa, Hia, Hs0, HA. cbn [andb].
  unfold signedDelta in *. rewrite (applyUpdate_fits _ _ HfA). cbn zeta.
  rewrite exec_entry_run, Hdb, Htb, Hab, Hib. cbn [Db.entry_id_seq Db.accounts Db.entries].
  rewrite Hs1. cbn [andb]. rewrite lookup_insert_ne by exact Hne. rewrite HB.
  rewrite (applyUpdate_fits _ _ HfB). cbn. rewrite <- app_assoc. reflexivity.
Qed.

Lemma expectedUpdate_wire e t dc :
  LedgerEntry.accountType e = AccountType_wire t ->
  LedgerEntry.debitCredit e = DebitCredit_wire dc ->
  expectedUpdate e = Some (ruleTable t dc (LedgerEntry.amount e)).
Proof.
  intros Ht Hd. unfold expectedUpdate.
  rewrite Ht, Hd, AccountType_of_wire_wire, DebitCredit_of_wire_wire. reflexivity.
Qed.

Lemma getAccountDirection_wire t d amount :
  getAccountDirection (AccountType_wire t) (DebitCredit_wire d) amount
  = Some (ruleTable t d amount).
Proof. destruct t, d; reflexivity. Qed.

(** ** The balance-direction resolver *)

(** Counterexample to C2 as the specification states it: on accounts the
    store holds as ASSET, a debit of 500 that carries LIABILITY lowers the
    balance to 19500 and a credit of 500 that carries LIABILITY raises it
    to 20500; and a debit of 1 to an asset account at 2147483647 is
    refused, the balance staying where it was. *)
Lemma carried_type_direction_counterexample :
  Account.accountType <$> Db.accounts readme_db !! 294329 = Some ASSET
  /\ Account.accountType <$> Db.accounts readme_db !! 190428 = Some ASSET
  /\ balanceOf (snd (handlePOST (postBatch mislabelled_batch) readme_db)) 294329
     = Some 19500
  /\ balanceOf (snd (handlePOST (postBatch mislabelled_batch) readme_db)) 190428
     = Some 20500
  /\ fst (handlePOST (postBatch overflow_batch) vault_db) = uncaught ValueOutOfRange
  /\ balanceOf (snd (handlePOST (postBatch overflow_batch) vault_db)) 1
     = Some 2147483647.
Proof. repeat split; vm_compute; reflexivity. Qed.

(** C2, as the code has it.  For every amount X > 0, the operations the
    handler builds for an entry of amount X move the balance of the target
    account by the type the entry carries, whatever type the store holds
    for the account: +X for a debit and -X for a credit that carry ASSET,
    -X for a debit and +X for a credit that carry LIABILITY.  This is so
    when the numbers of the entry, the next entry id and the new balance
    fit the Int columns; when the new balance does not fit, the update
    fails with a range error. *)
Theorem direction_of_entry (db : Db.t) (e : LedgerEntry.t) (acc : Account.t)
    (t : AccountType) (dc : DebitCredit) (X : Z) :
  0 < X ->
  LedgerEntry.amount e = X ->
  Db.accounts db !! LedgerEntry.accountId e = Some acc ->
  LedgerEntry.accountType e = AccountType_wire t ->
  LedgerEntry.debitCredit e = DebitCredit_wire dc ->
  inRange e ->
  fitsInt (Db.entry_id_seq db) = true ->
  let b' := match t, dc with
            | ASSET, DEBIT => Account.balance acc + X
            | ASSET, CREDIT => Account.balance acc - X
            | LIABILITY, DEBIT => Account.balance acc - X
            | LIABILITY, CREDIT => Account.balance acc + X
            end in
  getAccountDirection (LedgerEntry.accountType e) (LedgerEntry.debitCredit e) X
    = Some (ruleTable t dc X)
  /\ if fitsInt b' then
       exists rs db',
         exec_ops (createEntryTransactions e) db = (inr rs, db')
         /\ balanceOf db' (LedgerEntry.accountId e) = Some b'
     else fst (exec_ops (createEntryTransactions e) db) = inl ValueOutOfRange.
Proof.
  intros _ Hamt Hacc Hty Hdc (Ht & Ha & Hi) Hseq b'.
  split; [rewrite Hty, Hdc; apply getAccountDirection_wire|].
  pose proof (exec_entry_run e [] db) as Hrun. rewrite app_nil_r in Hrun.
  rewrite Hdc, DebitCredit_of_wire_wire, Ht, Ha, Hi, Hseq, Hacc in Hrun.
  cbn [andb] in Hrun.
  rewrite (expectedUpdate_wire e t dc Hty Hdc), Hamt in Hrun.
  assert (Hup : applyUpdate (Some (ruleTable t dc X)) (Account.balance acc) = checked b').
  { subst b'. destruct t, dc; reflexivity. }
  rewrite Hup in Hrun. unfold checked in Hrun.
  destruct (fitsInt b'); rewrite Hrun.
  - cbn. eexists _, _. split; [reflexivity|].
    unfold balanceOf. cbn. rewrite lookup_insert_eq. reflexivity.
  - reflexivity.
Qed.

Lemma direction_of_entry_witness :
  exists rs db',
    exec_ops (createEntryTransactions (draft 294329 "LIABILITY" "DEBIT" 5000)) readme_db
    = (inr rs, db')
    /\ balanceOf db' 294329 = Some 15000.
Proof.
  exact (proj2 (direction_of_entry readme_db (draft 294329 "LIABILITY" "DEBIT" 5000)
                  checkings2 LIABILITY DEBIT 5000 eq_refl eq_refl eq_refl eq_refl eq_refl
                  (conj eq_refl (conj eq_refl eq_refl)) eq_refl)).
Defined.

(** C7, as the code has it.  The resolver follows the rule table on the four
    declared (accountType, debitCredit) pairs.  It raises no error on any
    input: for an account type other than ASSET and LIABILITY it returns no
    result, whatever the direction, and an update without a result leaves
    the balance as it is; for ASSET with a direction other than
    DEBIT, and for LIABILITY with a direction other than CREDIT, it returns
    a decrement. *)
Theorem resolver_cases (accountType debitCredit : string) (amount : Z) :
  (forall t d, getAccountDirection (AccountType_wire t) (DebitCredit_wire d) amount
               = Some (ruleTable t d amount))
  /\ (accountType <> "ASSET" -> accountType <> "LIABILITY" ->
      getAccountDirection accountType debitCredit amount = None
      /\ forall b, applyUpdate (getAccountDirection accountType debitCredit amount) b
                   = Some b)
  /\ (debitCredit <> "DEBIT" ->
      getAccountDirection "ASSET" debitCredit amount = Some (decrement amount))
  /\ (debitCredit <> "CREDIT" ->
      getAccountDirection "LIABILITY" debitCredit amount = Some (decrement amount)).
Proof.
  split; [|split; [|split]].
  - intros [] []; reflexivity.
  - intros Ha Hl. unfold getAccountDirection. cbn [AccountType_wire].
    destruct (String.eqb_spec accountType "ASSET"); [contradiction|].
    destruct (String.eqb_spec accountType "LIABILITY"); [contradiction|].
    split; reflexivity.
  - intros Hd. unfold getAccountDirection. cbn.
    destruct (String.eqb_spec debitCredit "DEBIT"); [contradiction|reflexivity].
  - intros Hc. unfold getAccountDirection. cbn.
    destruct (String.eqb_spec debitCredit "CREDIT"); [contradiction|reflexivity].
Qed.

Lemma resolver_cases_witness :
  getAccountDirection "EQUITY" "DEBIT" 100 = None
  /\ getAccountDirection "ASSET" "debit" 100 = Some (decrement 100).
Proof.
  split.
  - apply (proj1 (proj2 (resolver_cases "EQUITY" "DEBIT" 100))); discriminate.
  - apply (proj1 (proj2 (proj2 (resolver_cases "EQUITY" "debit" 100)))); discriminate.
Defined.

(** Counterexample to C7 as the specification states it: an account type
    outside the table gives no result and no error, and a posting that
    carries it is accepted, its entry created and the balance of its account
    left as it was. *)
Lemma resolver_unknown_type_counterexample :
  getAccountDirection "EQUITY" "DEBIT" 100 = None
  /\ fst (handlePOST (postBatch equity_batch) readme_db)
     = status201 [created (row 15 294329 DEBIT 100); updated checkings2;
                  created (row 16 190428 CREDIT 100);
                  updated (Account.with_balance 19900 savings)]
  /\ balanceOf (snd (handlePOST (postBatch equity_batch) readme_db)) 294329
     = balanceOf readme_db 294329.
Proof. repeat split; vm_compute; reflexivity. Qed.

(** ** The posting operation *)


(** C9.  Starting from asset accounts A and B with balance 20000 each,
    posting the two-entry batch (A: debit 1234, B: credit 1234) succeeds,
    creates both entries, and leaves A at 21234 and B at 18766.  The
    transaction ids, the account ids and the next two entry ids are numbers
    of the Int columns. *)
Theorem transfer_example (db : Db.t) (a b : Z) (accA accB : Account.t)
    (body : TransactionBody.t) (ea eb : LedgerEntry.t) :
  a <> b ->
  Db.accounts db !! a = Some accA ->
  Db.accounts db !! b = Some accB ->
  Account.accountType accA = ASSET -> Account.balance accA = 20000 ->
  Account.accountType accB = ASSET -> Account.balance accB = 20000 ->
  LedgerEntry.accountId ea = a -> LedgerEntry.accountType ea = "ASSET" ->
  LedgerEntry.debitCredit ea = "DEBIT" -> LedgerEntry.amount ea = 1234 ->
  LedgerEntry.accountId eb = b -> LedgerEntry.accountType eb = "ASSET" ->
  LedgerEntry.debitCredit eb = "CREDIT" -> LedgerEntry.amount eb = 1234 ->
  TransactionBody.ledgerEntries body = Some [ea; eb] ->
  fitsInt a = true -> fitsInt b = true ->
  fitsInt (LedgerEntry.transactionId ea) = true ->
  fitsInt (LedgerEntry.transactionId eb) = true ->
  fitsInt (Db.entry_id_seq db) = true -> fitsInt (Db.entry_id_seq db + 1) = true ->
  exists xa xb db',
    handlePOST body db
    = (status201 [created xa; updated (Account.with_balance 21234 accA);
                  created xb; updated (Account.with_balance 18766 accB)], db')
    /\ records (Db.entry_id_seq db) ea xa
    /\ records (Db.entry_id_seq db + 1) eb xb
    /\ Db.entries db' = Db.entries db ++ [xa; xb]
    /\ balanceOf db' a = Some 21234
    /\ balanceOf db' b = Some 18766.
Proof.
  intros Hab HA HB HtA HbA HtB HbB Hia Hta Hda Hma Hib Htb Hdb Hmb Hbody
    Hfa Hfb Hfta Hftb Hs0 Hs1.
  assert (Hsa : signedDelta ea = 1234).
  { unfold signedDelta, expectedUpdate. rewrite Hta, Hda, Hma. reflexivity. }
  assert (Hsb : signedDelta eb = -1234).
  { unfold signedDelta, expectedUpdate. rewrite Htb, Hdb, Hmb. reflexivity. }
  pose proof (post_pair body db ea eb accA accB DEBIT CREDIT) as Hrun.
  cbn zeta in Hrun. rewrite Hsa, Hsb, HbA, HbB, Hia, Hib in Hrun.
  eexists _, _, _. split.
  - apply Hrun; try assumption.
    + unfold batchOf. rewrite Hbody. reflexivity.
    + rewrite Hda. reflexivity.
    + rewrite Hdb. reflexivity.
    + repeat split; [exact Hfta|rewrite Hma; reflexivity|rewrite Hia; exact Hfa].
    + repeat split; [exact Hftb|rewrite Hmb; reflexivity|rewrite Hib; exact Hfb].
    + reflexivity.
    + reflexivity.
  - repeat split; cbn; try (symmetry; assumption); try reflexivity.
    + unfold balanceOf. cbn. rewrite lookup_insert_ne by congruence.
      rewrite lookup_insert_eq. reflexivity.
    + unfold balanceOf. cbn. rewrite lookup_insert_eq. reflexivity.
Qed.

Lemma transfer_example_witness :
  exists xa xb db',
    handlePOST readme_body readme_db
    = (status201 [created xa; updated (Account.with_balance 21234 checkings2);
                  created xb; updated (Account.with_balance 18766 savings)], db')
    /\ records 15 (draft 294329 "ASSET" "DEBIT" 1234) xa
    /\ records (15 + 1) (draft 190428 "ASSET" "CREDIT" 1234) xb
    /\ Db.entries db' = [] ++ [xa; xb]
    /\ balanceOf db' 294329 = Some 21234
    /\ balanceOf db' 190428 = Some 18766.
Proof.
  apply (transfer_example readme_db 294329 190428 checkings2 savings readme_body
           (draft 294329 "ASSET" "DEBIT" 1234) (draft 190428 "ASSET" "CREDIT" 1234));
    try reflexivity.
  discriminate.
Defined.

(** C10.  An accepted posting writes no description: every entry it creates
    has a null description, whatever the request body carries, and it
    creates one entry per submitted ledger entry. *)
Theorem created_entries_have_no_description (body : TransactionBody.t) (db : Db.t) :
  accepted (fst (handlePOST body db)) ->
  exists rs db',
    handlePOST body db = (status201 rs, db')
    /\ Db.entries db' = Db.entries db ++ createdEntries rs
    /\ length (createdEntries rs) = length (batchOf body)
    /\ Forall (fun x => Entry.description x = None) (createdEntries rs).
Proof.
  intros Hacc. destruct (accepted_run _ _ Hacc) as (rs & db' & Hrun).
  destruct (handlePOST_accepted _ _ _ _ Hrun) as (_ & Hents & Hrec & Hdesc & _).
  exists rs, db'. repeat split; try assumption.
  exact (records_from_length _ _ _ Hrec).
Qed.

Lemma created_entries_have_no_description_witness :
  TransactionBody.description readme_body = "Lots of groceries"
  /\ exists rs db',
       handlePOST readme_body readme_db = (status201 rs, db')
       /\ Db.entries db' = Db.entries readme_db ++ createdEntries rs
       /\ length (createdEntries rs) = length (batchOf readme_body)
       /\ Forall (fun x => Entry.description x = None) (createdEntries rs).
Proof.
  split; [reflexivity|].
  apply (created_entries_have_no_description readme_body readme_db).
  vm_compute. exact I.
Defined.

(** ** Checks the handler does not make *)

(** Counterexample to C1 as the specification states it: a batch that
    debits 100 and credits 50 is accepted, and both balances move. *)
Lemma unbalanced_posting_counterexample :
  ~ balanced unbalanced_batch
  /\ fst (handlePOST (postBatch unbalanced_batch) readme_db)
     = status201 [created (row 15 294329 DEBIT 100);
                  updated (Account.with_balance 20100 checkings2);
                  created (row 16 190428 CREDIT 50);
                  updated (Account.with_balance 19950 savings)]
  /\ balanceOf (snd (handlePOST (postBatch unbalanced_batch) readme_db)) 294329
     = Some 20100
  /\ balanceOf (snd (handlePOST (postBatch unbalanced_batch) readme_db)) 190428
     = Some 19950.
Proof.
  split; [|repeat split; vm_compute; reflexivity].
  unfold balanced. vm_compute. discriminate.
Qed.

(** C1, as the code has it.  The handler does not compare debit and credit
    sums.  For any amounts X and Y, equal or not, the batch that debits X
    to one account and credits Y to another, both entries carrying ASSET,
    is accepted and moves the two balances by +X and -Y, provided the
    accounts exist and the submitted numbers, the next two entry ids and
    the new balances fit the Int columns; its debit sum is X and its credit
    sum is Y.  Every posting that is not accepted leaves the account rows,
    hence the balances, and the entries as they were. *)
Theorem posting_without_balance_check :
  (forall (db : Db.t) (a b : Z) (accA accB : Account.t) (t : Z) (na nb : string)
          (X Y : Z),
      a <> b ->
      Db.accounts db !! a = Some accA ->
      Db.accounts db !! b = Some accB ->
      fitsInt t = true -> fitsInt a = true -> fitsInt b = true ->
      fitsInt X = true -> fitsInt Y = true ->
      fitsInt (Db.entry_id_seq db) = true -> fitsInt (Db.entry_id_seq db + 1) = true ->
      fitsInt (Account.balance accA + X) = true ->
      fitsInt (Account.balance accB - Y) = true ->
      let batch := [entryOn t a "ASSET" "DEBIT" na X; entryOn t b "ASSET" "CREDIT" nb Y] in
      sumSide DEBIT batch = X /\ sumSide CREDIT batch = Y
      /\ accepted (fst (handlePOST (postBatch batch) db))
      /\ balanceOf (snd (handlePOST (postBatch batch) db)) a
         = Some (Account.balance accA + X)
      /\ balanceOf (snd (handlePOST (postBatch batch) db)) b
         = Some (Account.balance accB - Y))
  /\ (forall (body : TransactionBody.t) (db : Db.t),
        ~ accepted (fst (handlePOST body db)) ->
        Db.accounts (snd (handlePOST body db)) = Db.accounts db
        /\ Db.entries (snd (handlePOST body db)) = Db.entries db).
Proof.
  split.
  - intros db a b accA accB t na nb X Y Hab HA HB Ht Ha Hb HX HY Hs0 Hs1 HfA HfB batch.
    split; [cbn; lia|]. split; [cbn; lia|].
    pose proof (post_pair (postBatch batch) db
                  (entryOn t a "ASSET" "DEBIT" na X) (entryOn t b "ASSET" "CREDIT" nb Y)
                  accA accB DEBIT CREDIT eq_refl Hab HA HB eq_refl eq_refl
                  (conj Ht (conj HX Ha)) (conj Ht (conj HY Hb)) Hs0 Hs1 HfA) as Hrun.
    cbn zeta in Hrun. unfold signedDelta, expectedUpdate in Hrun.
    cbn [entryOn LedgerEntry.accountType LedgerEntry.debitCredit LedgerEntry.amount
         LedgerEntry.accountId AccountType_of_wire DebitCredit_of_wire String.eqb
         Ascii.eqb Bool.eqb ruleTable updateDelta] in Hrun.
    replace (Account.balance accB + - Y) with (Account.balance accB - Y) in Hrun by lia.
    rewrite (Hrun HfB). cbn [fst snd accepted]. split; [exact I|].
    unfold balanceOf. cbn [Db.accounts]. split.
    + rewrite lookup_insert_ne by congruence. rewrite lookup_insert_eq. reflexivity.
    + rewrite lookup_insert_eq. reflexivity.
  - intros body db Hrej.
    destruct (rejected_run _ _ Hrej) as (err & db' & Hrun).
    rewrite Hrun. exact (handlePOST_rejected _ _ _ _ Hrun).
Qed.

Lemma posting_without_balance_check_witness :
  ~ balanced unbalanced_batch
  /\ accepted (fst (handlePOST (postBatch unbalanced_batch) readme_db)).
Proof.
  split.
  - unfold balanced. vm_compute. discriminate.
  - apply (proj1 posting_without_balance_check readme_db 294329 190428 checkings2 savings
             1172 "Some ledger entry" "Some ledger entry" 100 50);
      try reflexivity.
    discriminate.
Defined.

(** Counterexample to C4 as the specification states it: a batch of one
    entry, a credit of 500 to a liability account with balance 0, is
    accepted; its entry is created and the balance becomes 500. *)
Lemma single_entry_counterexample :
  (length single_batch < 2)%nat
  /\ handlePOST (postBatch single_batch) loan_db
     = (status201 [created (row 1 7 CREDIT 500); updated (Account.with_balance 500 loan)],
        {| Db.accounts := <[7 := Account.with_balance 500 loan]> ∅;
           Db.entries := [row 1 7 CREDIT 500];
           Db.entry_id_seq := 2 |}).
Proof. split; [cbn; lia|vm_compute; reflexivity]. Qed.

(** C4, as the code has it.  The handler has no minimum batch size.  The
    empty batch is accepted on every store and writes nothing.  A batch of
    one entry is accepted when its account exists, its direction is a
    member of DebitCredit, and its numbers, the next entry id and the new
    balance fit the Int columns; its entry is then created and the balance
    of its account moved by what the rule table gives.  A batch of fewer
    than two entries that is not accepted leaves both tables as they
    were. *)
Theorem posting_without_size_check :
  (forall (body : TransactionBody.t) (db : Db.t),
      batchOf body = [] -> handlePOST body db = (status201 [], db))
  /\ (forall (body : TransactionBody.t) (db : Db.t) (e : LedgerEntry.t)
             (acc : Account.t) (dc : DebitCredit),
        batchOf body = [e] ->
        Db.accounts db !! LedgerEntry.accountId e = Some acc ->
        DebitCredit_of_wire (LedgerEntry.debitCredit e) = Some dc ->
        inRange e ->
        fitsInt (Db.entry_id_seq db) = true ->
        fitsInt (Account.balance acc + signedDelta e) = true ->
        exists db',
          handlePOST body db
          = (status201
               [created (rowOf (Db.entry_id_seq db) dc e);
                updated (Account.with_balance (Account.balance acc + signedDelta e) acc)],
             db')
          /\ Db.entries db' = Db.entries db ++ [rowOf (Db.entry_id_seq db) dc e]
          /\ balanceOf db' (LedgerEntry.accountId e)
             = Some (Account.balance acc + signedDelta e))
  /\ (forall (body : TransactionBody.t) (db : Db.t),
        (length (batchOf body) < 2)%nat ->
        ~ accepted (fst (handlePOST body db)) ->
        Db.accounts (snd (handlePOST body db)) = Db.accounts db
        /\ Db.entries (snd (handlePOST body db)) = Db.entries db).
Proof.
  split; [|split].
  - intros body db Hnil. rewrite handlePOST_unfold, Hnil. reflexivity.
  - intros body db e acc dc Hb Hacc Hdc Hr Hs Hf.
    pose proof (post_single body db e acc dc Hb Hacc Hdc Hr Hs Hf) as Hrun.
    cbn zeta in Hrun. eexists. split; [exact Hrun|]. cbn. split; [reflexivity|].
    unfold balanceOf. cbn. rewrite lookup_insert_eq. reflexivity.
  - intros body db _ Hrej.
    destruct (rejected_run _ _ Hrej) as (err & db' & Hrun).
    rewrite Hrun. exact (handlePOST_rejected _ _ _ _ Hrun).
Qed.

Lemma posting_without_size_check_witness :
  exists db',
    handlePOST (postBatch single_batch) loan_db
    = (status201 [created (row 1 7 CREDIT 500); updated (Account.with_balance 500 loan)],
       db')
    /\ Db.entries db' = Db.entries loan_db ++ [row 1 7 CREDIT 500]
    /\ balanceOf db' 7 = Some 500.
Proof.
  apply (proj1 (proj2 posting_without_size_check) (postBatch single_batch) loan_db
           (draft 7 "LIABILITY" "CREDIT" 500) loan CREDIT); try reflexivity.
  repeat split; reflexivity.
Defined.

(** Counterexample to C8 as the specification states it: a batch whose two
    entries have amount 0 is accepted and its rows are written; so is a
    batch whose two entries have amount -100, and there the debit lowers
    the asset balance and the credit raises it. *)
Lemma nonpositive_amount_counterexample :
  Exists (fun e => LedgerEntry.amount e <= 0) zero_batch
  /\ fst (handlePOST (postBatch zero_batch) readme_db)
     = status201 [created (row 15 294329 DEBIT 0); updated checkings2;
                  created (row 16 190428 CREDIT 0); updated savings]
  /\ fst (handlePOST (postBatch negative_batch) readme_db)
     = status201 [created (row 15 294329 DEBIT (-100));
                  updated (Account.with_balance 19900 checkings2);
                  created (row 16 190428 CREDIT (-100));
                  updated (Account.with_balance 20100 savings)].
Proof.
  split; [left; cbn; lia|].
  split; vm_compute; reflexivity.
Qed.

(** C8, as the code has it.  The handler does not check the sign of an
    amount.  For every amount X <= 0, the balanced batch that debits X to
    one account and credits X to another, both entries carrying ASSET, is
    accepted and moves the balances by +X and -X, provided the accounts
    exist and the submitted numbers, the next two entry ids and the new
    balances fit the Int columns.  Whenever a batch with an entry of amount
    <= 0 is accepted, its rows are created with the amounts as submitted,
    so a row with an amount <= 0 is written, and every balance moves by the
    net adjustment of the batch. *)
Theorem posting_without_amount_check :
  (forall (db : Db.t) (a b : Z) (accA accB : Account.t) (t : Z) (na nb : string) (X : Z),
      X <= 0 ->
      a <> b ->
      Db.accounts db !! a = Some accA ->
      Db.accounts db !! b = Some accB ->
      fitsInt t = true -> fitsInt a = true -> fitsInt b = true -> fitsInt X = true ->
      fitsInt (Db.entry_id_seq db) = true -> fitsInt (Db.entry_id_seq db + 1) = true ->
      fitsInt (Account.balance accA + X) = true ->
      fitsInt (Account.balance accB - X) = true ->
      let batch := [entryOn t a "ASSET" "DEBIT" na X; entryOn t b "ASSET" "CREDIT" nb X] in
      accepted (fst (handlePOST (postBatch batch) db))
      /\ balanceOf (snd (handlePOST (postBatch batch) db)) a
         = Some (Account.balance accA + X)
      /\ balanceOf (snd (handlePOST (postBatch batch) db)) b
         = Some (Account.balance accB - X))
  /\ (forall (body : TransactionBody.t) (db : Db.t),
        Exists (fun e => LedgerEntry.amount e <= 0) (batchOf body) ->
        accepted (fst (handlePOST body db)) ->
        exists rs db',
          handlePOST body db = (status201 rs, db')
          /\ Db.entries db' = Db.entries db ++ createdEntries rs
          /\ records_from (Db.entry_id_seq db) (batchOf body) (createdEntries rs)
          /\ Exists (fun x => Entry.amount x <= 0) (createdEntries rs)
          /\ forall a, balanceOf db' a
                       = (fun b => b + netAdjustment a (batchOf body)) <$> balanceOf db a).
Proof.
  split.
  - intros db a b accA accB t na nb X _ Hab HA HB Ht Ha Hb HX Hs0 Hs1 HfA HfB batch.
    pose proof (post_pair (postBatch batch) db
                  (entryOn t a "ASSET" "DEBIT" na X) (entryOn t b "ASSET" "CREDIT" nb X)
                  accA accB DEBIT CREDIT eq_refl Hab HA HB eq_refl eq_refl
                  (conj Ht (conj HX Ha)) (conj Ht (conj HX Hb)) Hs0 Hs1 HfA) as Hrun.
    cbn zeta in Hrun. unfold signedDelta, expectedUpdate in Hrun.
    cbn [entryOn LedgerEntry.accountType LedgerEntry.debitCredit LedgerEntry.amount
         LedgerEntry.accountId AccountType_of_wire DebitCredit_of_wire String.eqb
         Ascii.eqb Bool.eqb ruleTable updateDelta] in Hrun.
    replace (Account.balance accB + - X) with (Account.balance accB - X) in Hrun by lia.
    rewrite (Hrun HfB). cbn [fst snd accepted]. split; [exact I|].
    unfold balanceOf. cbn [Db.accounts]. split.
    + rewrite lookup_insert_ne by congruence. rewrite lookup_insert_eq. reflexivity.
    + rewrite lookup_insert_eq. reflexivity.
  - intros body db Hex Hacc. destruct (accepted_run _ _ Hacc) as (rs & db' & Hrun).
    destruct (handlePOST_accepted _ _ _ _ Hrun) as (Haccs & Hents & Hrec & _).
    exists rs, db'. repeat split; try assumption.
    + exact (records_from_Exists (fun z => z <= 0) _ _ _ Hrec Hex).
    + intros a. apply balanceOf_adjust. exact Haccs.
Qed.

Lemma posting_without_amount_check_witness :
  accepted (fst (handlePOST (postBatch negative_batch) readme_db))
  /\ balanceOf (snd (handlePOST (postBatch negative_batch) readme_db)) 294329
     = Some (20000 + -100)
  /\ balanceOf (snd (handlePOST (postBatch negative_batch) readme_db)) 190428
     = Some (20000 - -100).
Proof.
  apply (proj1 posting_without_amount_check readme_db 294329 190428 checkings2 savings
           1172 "Some ledger entry" "Some ledger entry" (-100));
    try reflexivity.
  - lia.
  - discriminate.
Defined.

(** ** Where the account type comes from, and how adjustments are batched *)

Lemma balanceOf_retype f db a : balanceOf (retype_db f db) a = balanceOf db a.
Proof.
  unfold balanceOf, retype_db. cbn. rewrite map_lookup_imap.
  destruct (Db.accounts db !! a); reflexivity.
Qed.

Lemma retype_insert f (accs : gmap Z Account.t) i b acc :
  map_imap (fun a x => Some (Account.with_accountType (f a) x))
    (<[i := Account.with_balance b acc]> accs)
  = <[i := Account.with_balance b (Account.with_accountType (f i) acc)]>
      (map_imap (fun a x => Some (Account.with_accountType (f a) x)) accs).
Proof.
  apply map_eq. intros j. rewrite map_lookup_imap.
  destruct (decide (i = j)) as [<-|Hne].
  - rewrite !lookup_insert_eq. reflexivity.
  - rewrite !lookup_insert_ne by done. rewrite map_lookup_imap. reflexivity.
Qed.

(** A batch that runs to the end runs to the end on the relabelled store,
    and ends in the relabelled store. *)
Lemma exec_batch_retype f batch : forall db rs db',
  exec_ops (flat_map createEntryTransactions batch) db = (inr rs, db') ->
  exists rs',
    exec_ops (flat_map createEntryTransactions batch) (retype_db f db)
    = (inr rs', retype_db f db').
Proof.
  induction batch as [|e es IH]; intros db rs db' Hrun.
  - cbn in Hrun. injection Hrun as <- <-. cbn. eauto.
  - cbn [flat_map] in *. rewrite exec_entry_run in *.
    destruct (DebitCredit_of_wire (LedgerEntry.debitCredit e)) as [dc|]; [|discriminate].
    cbn [retype_db Db.entry_id_seq Db.accounts Db.entries].
    destruct (fitsInt (LedgerEntry.transactionId e) && fitsInt (LedgerEntry.amount e)
              && fitsInt (LedgerEntry.accountId e) && fitsInt (Db.entry_id_seq db));
      [|discriminate].
    rewrite map_lookup_imap.
    destruct (Db.accounts db !! LedgerEntry.accountId e) as [acc|]; [|discriminate].
    cbn [mbind option_bind Account.with_accountType Account.balance].
    destruct (applyUpdate (expectedUpdate e) (Account.balance acc)) as [b'|];
      [|discriminate].
    cbn zeta in *.
    destruct (exec_ops (flat_map createEntryTransactions es) _) as [[err|rs0] db2]
      eqn:Hrest in Hrun; [discriminate|].
    injection Hrun as <- <-.
    destruct (IH _ _ _ Hrest) as (rs' & Hrun').
    unfold retype_db in Hrun' at 1. cbn [Db.accounts Db.entries Db.entry_id_seq] in Hrun'.
    rewrite retype_insert in Hrun'. rewrite Hrun'. eauto.
Qed.

(** Counterexample to C5 as the specification states it: two requests
    against the same store that differ only in the accountType the caller
    wrote on the first entry end with different balances for that entry's
    account, whose stored type is ASSET in both runs. *)
Lemma caller_type_counterexample :
  Forall2 sameButAccountType (batchOf readme_body) relabelled_batch
  /\ Account.accountType <$> Db.accounts readme_db !! 294329 = Some ASSET
  /\ balanceOf (snd (handlePOST readme_body readme_db)) 294329 = Some 21234
  /\ balanceOf (snd (handlePOST (postBatch relabelled_batch) readme_db)) 294329
     = Some 18766.
Proof.
  split; [repeat constructor|].
  repeat split; vm_compute; reflexivity.
Qed.

(** C5, as the code has it.  The signed delta of every draft is resolved
    from the accountType field of the submitted entry, and the stored
    account type is never read: however the stored account types are
    relabelled, a batch that is accepted is accepted again, creates the
    same entries, and leaves every balance at its earlier value plus the
    sum of the deltas the rule table gives for the submitted accountType
    fields. *)
Theorem delta_from_submitted_type (f : Z -> AccountType) (body : TransactionBody.t)
    (db : Db.t) :
  accepted (fst (handlePOST body db)) ->
  exists rs db',
    handlePOST body (retype_db f db) = (status201 rs, db')
    /\ createdEntries rs = createdEntries (match fst (handlePOST body db) with
                                            | status201 rs0 => rs0
                                            | uncaught _ => []
                                            end)
    /\ forall a, balanceOf db' a
                 = (fun b => b + netAdjustment a (batchOf body)) <$> balanceOf db a.
Proof.
  intros Hacc. destruct (accepted_run _ _ Hacc) as (rs0 & db0 & Hrun0).
  assert (Hrun : exists rs, handlePOST body (retype_db f db)
                            = (status201 rs, retype_db f db0)).
  { rewrite handlePOST_unfold in *. destruct (forallb valid_op _); [|discriminate].
    destruct (exec_ops _ db) as [[err|r0] d0] eqn:Hexec; [discriminate|].
    injection Hrun0 as <- <-.
    destruct (exec_batch_retype f _ _ _ _ Hexec) as (rs' & ->). eauto. }
  destruct Hrun as (rs & Hrun).
  destruct (handlePOST_accepted _ _ _ _ Hrun) as (Haccs & _ & Hrec & Hdesc & _).
  destruct (handlePOST_accepted _ _ _ _ Hrun0) as (_ & _ & Hrec0 & Hdesc0 & _).
  exists rs, (retype_db f db0). split; [exact Hrun|]. split.
  - rewrite Hrun0. cbn [fst]. cbn [retype_db Db.entry_id_seq] in Hrec.
    exact (records_from_unique _ _ _ _ Hrec Hrec0 Hdesc Hdesc0).
  - intros a. rewrite (balanceOf_adjust _ _ _ a Haccs). rewrite balanceOf_retype.
    reflexivity.
Qed.

Lemma delta_from_submitted_type_witness :
  exists rs db',
    handlePOST (postBatch relabelled_batch) (retype_db (fun _ => ASSET) readme_db)
    = (status201 rs, db')
    /\ createdEntries rs
       = createdEntries (match fst (handlePOST (postBatch relabelled_batch) readme_db) with
                         | status201 rs0 => rs0
                         | uncaught _ => []
                         end)
    /\ forall a, balanceOf db' a
                 = (fun b => b + netAdjustment a (batchOf (postBatch relabelled_batch)))
                     <$> balanceOf readme_db a.
Proof.
  apply (delta_from_submitted_type (fun _ => ASSET) (postBatch relabelled_batch) readme_db).
  vm_compute. exact I.
Defined.

Lemma adjustmentsFor_batch a batch :
  Forall (fun e => is_Some (DebitCredit_of_wire (LedgerEntry.debitCredit e))) batch ->
  adjustmentsFor a (flat_map createEntryTransactions batch)
  = map expectedUpdate (entriesFor a batch).
Proof.
  unfold entriesFor. induction 1 as [|e es [dc Hdc] _ IH]; [reflexivity|].
  cbn [flat_map createEntryTransactions app adjustmentsFor].
  rewrite filter_cons, (getAccountDirection_expected e dc Hdc).
  destruct (Z.eqb_spec (LedgerEntry.accountId e) a) as [Heq|Hne].
  - rewrite decide_True by exact Heq. cbn. f_equal. exact IH.
  - rewrite decide_False by exact Hne. exact IH.
Qed.

Lemma netAdjustment_entriesFor a batch :
  netAdjustment a batch = foldr Z.add 0 (map signedDelta (entriesFor a batch)).
Proof.
  unfold entriesFor. induction batch as [|e es IH]; [reflexivity|].
  cbn [netAdjustment]. rewrite filter_cons.
  destruct (Z.eqb_spec (LedgerEntry.accountId e) a) as [Heq|Hne].
  - rewrite decide_True by exact Heq. cbn. rewrite IH. reflexivity.
  - rewrite decide_False by exact Hne. rewrite IH. lia.
Qed.

(** Counterexample to C6 as the specification states it: for a batch with
    two debits to one account the pending operations hold two balance
    adjustments for that account, one per entry, and neither is the sum
    300. *)
Lemma adjustment_per_account_counterexample :
  adjustmentsFor 294329
    (flat_map (fun entry => createEntryTransactions entry) split_batch)
  = [Some (increment 100); Some (increment 200)]
  /\ netAdjustment 294329 split_batch = 300
  /\ updatedAccounts (match fst (handlePOST (postBatch split_batch) readme_db) with
                      | status201 rs => rs
                      | uncaught _ => []
                      end)
     = [Account.with_balance 20100 checkings2; Account.with_balance 20300 checkings2;
        Account.with_balance 19700 savings].
Proof. repeat split; vm_compute; reflexivity. Qed.

(** C6, as the code has it.  For every accepted posting the pending
    operations hold one balance adjustment per submitted entry, in entry
    order, not one per account: the adjustments for an account are, entry
    by entry, what the rule table gives for the account type and the
    direction the entry carries, that is an increment or a decrement by the
    entry's amount when the carried type is ASSET or LIABILITY and no
    change of the balance when it is neither.  They run one after the other
    inside the transaction, one account update per entry, and the account's
    final balance is its initial balance plus the algebraic sum of the
    deltas of those adjustments. *)
Theorem adjustment_per_entry (body : TransactionBody.t) (db : Db.t) (a : Z) :
  accepted (fst (handlePOST body db)) ->
  adjustmentsFor a (flat_map (fun entry => createEntryTransactions entry) (batchOf body))
  = map expectedUpdate (entriesFor a (batchOf body))
  /\ Forall (fun e =>
       match AccountType_of_wire (LedgerEntry.accountType e) with
       | Some t =>
           expectedUpdate e = Some (increment (LedgerEntry.amount e))
           \/ expectedUpdate e = Some (decrement (LedgerEntry.amount e))
       | None => expectedUpdate e = None
       end) (batchOf body)
  /\ (exists rs, fst (handlePOST body db) = status201 rs
                 /\ length (updatedAccounts rs) = length (batchOf body))
  /\ balanceOf (snd (handlePOST body db)) a
     = (fun b => b + foldr Z.add 0 (map (fun e => updateDelta (expectedUpdate e))
                                      (entriesFor a (batchOf body))))
         <$> balanceOf db a.
Proof.
  intros Hacc. destruct (accepted_run _ _ Hacc) as (rs & db' & Hrun).
  destruct (handlePOST_accepted _ _ _ _ Hrun) as (Haccs & _ & _ & _ & Hlen & Hpost & _).
  assert (Hdir : Forall (fun e => is_Some (DebitCredit_of_wire (LedgerEntry.debitCredit e)))
                   (batchOf body)).
  { eapply Forall_impl; [exact Hpost|]. intros e [_ He]. exact He. }
  split; [apply adjustmentsFor_batch; exact Hdir|]. split.
  - eapply Forall_impl; [exact Hdir|]. intros e [dc Hdc]. unfold expectedUpdate.
    rewrite Hdc. destruct (AccountType_of_wire _) as [[]|]; destruct dc; cbn; auto.
  - rewrite Hrun. cbn [fst snd]. split.
    + exists rs. split; [reflexivity|exact Hlen].
    + rewrite (balanceOf_adjust _ _ _ a Haccs), netAdjustment_entriesFor. reflexivity.
Qed.

Lemma adjustment_per_entry_witness :
  adjustmentsFor 294329
    (flat_map (fun entry => createEntryTransactions entry)
       (batchOf (postBatch equity_batch)))
  = map expectedUpdate (entriesFor 294329 (batchOf (postBatch equity_batch)))
  /\ expectedUpdate (draft 294329 "EQUITY" "DEBIT" 100) = None.
Proof.
  split; [|reflexivity].
  apply (adjustment_per_entry (postBatch equity_batch) readme_db 294329).
  vm_compute. exact I.
Defined.

(** ** The store's consistency under the operations *)

Lemma exec_op_seq op db : Db.entry_id_seq db <= Db.entry_id_seq (snd (exec_op op db)).
Proof.
  destruct op as [d|d i]; cbn -[fitsInt].
  - destruct (DebitCredit_of_wire _); [|cbn; lia].
    destruct (_ && _); [|cbn; lia].
    destruct (Db.accounts db !! _); cbn; lia.
  - destruct (Db.accounts db !! i); [|cbn; lia].
    destruct (applyUpdate _ _); cbn; lia.
Qed.

Lemma exec_ops_seq ops : forall db,
  Db.entry_id_seq db <= Db.entry_id_seq (snd (exec_ops ops db)).
Proof.
  induction ops as [|op ops IH]; intros db; cbn; [lia|].
  pose proof (exec_op_seq op db) as H1.
  destruct (exec_op op db) as [[err|r] db1]; cbn in *; [exact H1|].
  pose proof (IH db1) as H2.
  destruct (exec_ops ops db1) as [[err|rs] db2]; cbn in *; lia.
Qed.

Lemma exec_op_ok op db : db_ok db -> db_ok (snd (exec_op op db)).
Proof.
  intros (Hkey & Href & Hlt & Hnd). destruct op as [d|d i]; cbn -[fitsInt].
  - destruct (DebitCredit_of_wire _) as [dc|]; [|cbn; repeat split; assumption].
    destruct (_ && _); [|cbn; repeat split; assumption].
    destruct (Db.accounts db !! EntryCreateInput.accountId d) as [acc|] eqn:Hacc; cbn.
    + repeat split; cbn.
      * exact Hkey.
      * apply Forall_app. split; [exact Href|]. constructor; [|constructor].
        cbn. rewrite Hacc. eauto.
      * apply Forall_app. split.
        -- eapply Forall_impl; [exact Hlt|]. cbn. intros; lia.
        -- constructor; [cbn; lia|constructor].
      * rewrite fmap_app. apply NoDup_app. split; [exact Hnd|]. split.
        -- intros j Hj Hin. cbn in Hin. apply list_elem_of_singleton in Hin. subst j.
           apply list_elem_of_fmap in Hj as (x & Hx & Hin).
           rewrite Forall_forall in Hlt. specialize (Hlt x Hin). lia.
        -- cbn. apply NoDup_singleton.
    + repeat split; cbn; try assumption.
      eapply Forall_impl; [exact Hlt|]. cbn. intros; lia.
  - destruct (Db.accounts db !! i) as [acc|] eqn:Hacc; cbn; [|repeat split; assumption].
    destruct (applyUpdate _ _) as [b'|]; cbn; [|repeat split; assumption].
    repeat split; cbn; try assumption.
    + intros j a. rewrite lookup_insert_Some. intros [[<- <-]|[_ Hj]].
      * cbn. exact (Hkey _ _ Hacc).
      * exact (Hkey _ _ Hj).
    + eapply Forall_impl; [exact Href|]. cbn. intros x Hx.
      apply lookup_insert_is_Some'. right. exact Hx.
Qed.

Lemma exec_ops_ok ops : forall db, db_ok db -> db_ok (snd (exec_ops ops db)).
Proof.
  induction ops as [|op ops IH]; intros db Hok; cbn; [exact Hok|].
  pose proof (exec_op_ok op db Hok) as H1.
  destruct (exec_op op db) as [[err|r] db1]; cbn in *; [exact H1|].
  pose proof (IH db1 H1) as H2.
  destruct (exec_ops ops db1) as [[err|rs] db2]; cbn in *; exact H2.
Qed.

Lemma transaction_ok ops db : db_ok db -> db_ok (snd (transaction ops db)).
Proof.
  intros Hok. unfold transaction. destruct (forallb valid_op ops); [|exact Hok].
  pose proof (exec_ops_ok ops db Hok) as H1.
  pose proof (exec_ops_seq ops db) as H2.
  destruct (exec_ops ops db) as [[err|rs] db']; cbn in *; [|exact H1].
  destruct Hok as (Hkey & Href & Hlt & Hnd). repeat split; cbn; try assumption.
  eapply Forall_impl; [exact Hlt|]. cbn. intros; lia.
Qed.

Lemma handlePOST_ok body db : db_ok db -> db_ok (snd (handlePOST body db)).
Proof.
  intros Hok. unfold handlePOST.
  pose proof (transaction_ok
                (flat_map (fun entry => createEntryTransactions entry)
                   (default [] (TransactionBody.ledgerEntries body))) db Hok) as H.
  destruct (transaction _ db) as [[err|rs] db']; exact H.
Qed.

Lemma readme_db_ok : db_ok readme_db.
Proof.
  repeat split; cbn; try constructor.
  intros i a. unfold readme_db. cbn.
  rewrite !lookup_insert_Some, lookup_empty.
  intros [[<- <-]|[_ [[<- <-]|[_ [[<- <-]|[_ [[<- <-]|[_ H]]]]]]]];
    try reflexivity. discriminate.
Defined.

(** X1.  Whatever the method and the body, a request to /api/transaction
    keeps the rows consistent: accounts stay under their own id, every entry
    references an existing account, and entry ids stay distinct and below
    the sequence; this holds for rejected postings too. *)
Theorem transaction_route_keeps_consistency (order : RowOrder) (method : string)
    (body : TransactionBody.t) (db : Db.t) :
  db_ok db -> db_ok (snd (handle order method body db)).
Proof.
  intros Hok. unfold handle.
  destruct (String.eqb method "POST").
  - pose proof (handlePOST_ok body db Hok) as H.
    destruct (handlePOST body db) as [r db']. exact H.
  - destruct (String.eqb method "GET"); exact Hok.
Qed.

Lemma transaction_route_keeps_consistency_witness :
  db_ok (snd (handle insertionOrder "POST" (postBatch split_batch)
                (snd (handle insertionOrder "POST" readme_body readme_db)))).
Proof.
  apply (transaction_route_keeps_consistency insertionOrder "POST" (postBatch split_batch)).
  apply (transaction_route_keeps_consistency insertionOrder "POST" readme_body readme_db).
  exact readme_db_ok.
Defined.

(** ** Further properties of the posting handler *)

Lemma exec_ops_app ops1 ops2 : forall db,
  exec_ops (ops1 ++ ops2) db =
  match exec_ops ops1 db with
  | (inl err, db1) => (inl err, db1)
  | (inr rs1, db1) =>
      match exec_ops ops2 db1 with
      | (inl err, db2) => (inl err, db2)
      | (inr rs2, db2) => (inr (rs1 ++ rs2), db2)
      end
  end.
Proof.
  induction ops1 as [|op ops1 IH]; intros db; cbn.
  - destruct (exec_ops ops2 db) as [[err|rs] db2]; reflexivity.
  - destruct (exec_op op db) as [[err|r] db1]; [reflexivity|].
    rewrite IH. destruct (exec_ops ops1 db1) as [[err|rs1] db1']; [reflexivity|].
    destruct (exec_ops ops2 db1') as [[err|rs2] db2]; reflexivity.
Qed.

(** X2.  Two accepted postings, one after the other, leave the same store
    and the same operation results as the single posting of the two batches
    joined: splitting a batch changes nothing but the atomicity. *)
Theorem postings_compose (body1 body2 body : TransactionBody.t) (db db1 db2 : Db.t)
    (rs1 rs2 : list OpResult) :
  batchOf body = batchOf body1 ++ batchOf body2 ->
  handlePOST body1 db = (status201 rs1, db1) ->
  handlePOST body2 db1 = (status201 rs2, db2) ->
  handlePOST body db = (status201 (rs1 ++ rs2), db2).
Proof.
  intros Hbatch H1 H2. rewrite handlePOST_unfold in *.
  rewrite Hbatch, flat_map_app, forallb_app, exec_ops_app.
  destruct (forallb valid_op (flat_map _ (batchOf body1))); [|discriminate].
  destruct (forallb valid_op (flat_map _ (batchOf body2))); [|discriminate].
  cbn [andb].
  destruct (exec_ops (flat_map _ (batchOf body1)) db) as [[err|r1] d1]; [discriminate|].
  injection H1 as <- <-.
  destruct (exec_ops (flat_map _ (batchOf body2)) d1) as [[err|r2] d2]; [discriminate|].
  injection H2 as <- <-. reflexivity.
Qed.

Lemma postings_compose_witness :
  handlePOST (postBatch (batchOf readme_body ++ split_batch)) readme_db
  = (status201 (resultsOf (fst (handlePOST readme_body readme_db))
                ++ resultsOf (fst (handlePOST (postBatch split_batch) posted_db))),
     snd (handlePOST (postBatch split_batch) posted_db)).
Proof.
  apply (postings_compose readme_body (postBatch split_batch)
           (postBatch (batchOf readme_body ++ split_batch)) readme_db posted_db).
  - reflexivity.
  - vm_compute. reflexivity.
  - vm_compute. reflexivity.
Defined.

(** The first failing operation of a batch is never the balance update. *)
Lemma exec_batch_error batch : forall db err db',
  exec_ops (flat_map createEntryTransactions batch) db = (inl err, db') ->
  err <> RecordNotFound.
Proof.
  induction batch as [|e es IH]; intros db err db' Hrun; [discriminate|].
  cbn [flat_map] in Hrun. rewrite exec_entry_run in Hrun.
  destruct (DebitCredit_of_wire (LedgerEntry.debitCredit e)) as [dc|];
    [|injection Hrun as <- _; discriminate].
  destruct (_ && _); [|injection Hrun as <- _; discriminate].
  destruct (Db.accounts db !! LedgerEntry.accountId e) as [acc|];
    [|injection Hrun as <- _; discriminate].
  destruct (applyUpdate _ _) as [b'|]; [|injection Hrun as <- _; discriminate].
  cbn zeta in Hrun.
  destruct (exec_ops _ _) as [[err1|rs] db2] eqn:Hrest; [|discriminate].
  injection Hrun as <- _. exact (IH _ _ _ Hrest).
Qed.

(** X3.  The posting handler never fails with a missing record on the
    balance update: each entry is created before its account is updated,
    so the update of a batch never runs against an account that is not
    there. *)
Theorem posting_never_misses_record (body : TransactionBody.t) (db : Db.t) :
  fst (handlePOST body db) <> uncaught RecordNotFound.
Proof.
  rewrite handlePOST_unfold. destruct (forallb valid_op _); [|cbn; discriminate].
  destruct (exec_ops _ db) as [[err|rs] db'] eqn:Hrun; cbn; [|discriminate].
  intros [= ->]. exact (exec_batch_error _ _ _ _ Hrun eq_refl).
Qed.





(** ** Reading back what was posted *)

Lemma records_from_transactionId t batch : forall i xs,
  records_from i batch xs ->
  Forall (fun e => LedgerEntry.transactionId e = t) batch ->
  Forall (fun x => Entry.transactionId x = t) xs.
Proof.
  induction batch as [|e es IH]; intros i [|x xs] Hrec Hall; cbn in Hrec;
    try tauto; [constructor|].
  apply Forall_cons in Hall as [He Hes]. destruct Hrec as [Hx Hrest].
  constructor; [|exact (IH _ _ Hrest Hes)].
  destruct Hx as (_ & -> & _). exact He.
Qed.


Lemma filter_all {A} (P : A -> Prop) `{forall x, Decision (P x)} (l : list A) :
  Forall P l -> filter P l = l.
Proof.
  induction 1 as [|x l Hx _ IH]; [reflexivity|].
  rewrite filter_cons, decide_True by exact Hx. f_equal. exact IH.
Qed.

Lemma filter_none {A} (P : A -> Prop) `{forall x, Decision (P x)} (l : list A) :
  Forall (fun x => ~ P x) l -> filter P l = [].
Proof.
  induction 1 as [|x l Hx _ IH]; [reflexivity|].
  rewrite filter_cons, decide_False by exact Hx. exact IH.
Qed.

Lemma filter_unique_key {A} (f : A -> Z) (l : list A) (x : A) :
  NoDup (f <$> l) -> x ∈ l -> filter (fun y => f y = f x) l = [x].
Proof.
  induction l as [|y l IH]; intros Hnd Hin; [inversion Hin|].
  cbn in Hnd. apply NoDup_cons in Hnd as [Hy Hnd]. rewrite filter_cons.
  apply elem_of_cons in Hin as [->|Hin].
  - rewrite decide_True by reflexivity. f_equal. apply filter_none.
    apply Forall_forall. intros z Hz Heq. apply Hy. rewrite <- Heq.
    apply list_elem_of_fmap. eauto.
  - rewrite decide_False; [exact (IH Hnd Hin)|].
    intros Heq. apply Hy. rewrite Heq. apply list_elem_of_fmap. eauto.
Qed.

Lemma filter_key_length {A} (f : A -> Z) (l : list A) (n : Z) :
  NoDup (f <$> l) -> (length (filter (fun y => f y = n) l) <= 1)%nat.
Proof.
  induction l as [|y l IH]; intros Hnd; [cbn; lia|].
  cbn in Hnd. apply NoDup_cons in Hnd as [Hy Hnd]. rewrite filter_cons.
  destruct (decide (f y = n)) as [Heq|Hne]; [|exact (IH Hnd)].
  rewrite filter_none; [cbn; lia|].
  apply Forall_forall. intros z Hz Hfz. apply Hy. rewrite Heq, <- Hfz.
  apply list_elem_of_fmap. eauto.
Qed.

(** X5.  After an accepted POST /api/transaction, GET /api/transaction
    returns, in whatever order the database picks, exactly the entries
    that were there before, unchanged, together with one row per submitted
    entry. *)
Theorem listing_after_posting (order order' : RowOrder) (body body' : TransactionBody.t)
    (db : Db.t) :
  accepted (fst (handlePOST body db)) ->
  exists rs db' es,
    handle order "POST" body db = (posted (status201 rs), db')
    /\ handle order' "GET" body' db' = (listed es, db')
    /\ es ≡ₚ handleGET order db ++ createdEntries rs
    /\ records_from (Db.entry_id_seq db) (batchOf body) (createdEntries rs).
Proof.
  intros Hacc. destruct (accepted_run _ _ Hacc) as (rs & db' & Hrun).
  destruct (handlePOST_accepted _ _ _ _ Hrun) as (_ & Hents & Hrec & _).
  exists rs, db', (handleGET order' db'). unfold handle. cbn. rewrite Hrun.
  repeat split; [|exact Hrec]. unfold handleGET.
  rewrite !arrange_perm, Hents. reflexivity.
Qed.

Lemma listing_after_posting_witness :
  exists rs db' es,
    handle insertionOrder "POST" readme_body readme_db = (posted (status201 rs), db')
    /\ handle reverseOrder "GET" (postBatch []) db' = (listed es, db')
    /\ es ≡ₚ handleGET insertionOrder readme_db ++ createdEntries rs
    /\ records_from (Db.entry_id_seq readme_db) (batchOf readme_body) (createdEntries rs).
Proof.
  apply (listing_after_posting insertionOrder reverseOrder readme_body (postBatch [])
           readme_db).
  vm_compute. exact I.
Defined.

(** X6.  GET /api/transaction/:id returns the entries of that transaction
    only.  After an accepted posting whose entries all carry transaction id
    t, the listing of t holds, in whatever order the database picks, the
    entries it held before and exactly the rows the posting created, and
    the listing of every other transaction holds the entries it held
    before. *)
Theorem transaction_listing_after_posting (order order' : RowOrder)
    (body : TransactionBody.t) (db : Db.t) (t : Z) :
  accepted (fst (handlePOST body db)) ->
  Forall (fun e => LedgerEntry.transactionId e = t) (batchOf body) ->
  exists rs db' es,
    handlePOST body db = (status201 rs, db')
    /\ TransactionId.handle order' "GET" t db' = json es
    /\ es ≡ₚ TransactionId.handleGET order t db ++ createdEntries rs
    /\ (forall t', t' <> t ->
          TransactionId.handleGET order' t' db' ≡ₚ TransactionId.handleGET order t' db)
    /\ forall t', Forall (fun x => Entry.transactionId x = t')
                    (TransactionId.handleGET order' t' db').
Proof.
  intros Hacc Ht. destruct (accepted_run _ _ Hacc) as (rs & db' & Hrun).
  destruct (handlePOST_accepted _ _ _ _ Hrun) as (_ & Hents & Hrec & _).
  pose proof (records_from_transactionId t _ _ _ Hrec Ht) as Hnew.
  exists rs, db', (TransactionId.handleGET order' t db').
  split; [exact Hrun|]. split; [reflexivity|].
  unfold TransactionId.handleGET. rewrite Hents. repeat split.
  - rewrite !arrange_perm, filter_app. f_equiv.
    rewrite (filter_all _ _ Hnew). reflexivity.
  - intros t' Hne. rewrite !arrange_perm, filter_app.
    rewrite (filter_none _ (createdEntries rs)); [rewrite app_nil_r; reflexivity|].
    eapply Forall_impl; [exact Hnew|]. cbn. intros x -> Heq. congruence.
  - intros t'. rewrite arrange_perm. apply Forall_forall. intros x Hx.
    apply list_elem_of_filter in Hx as [Hx _]. exact Hx.
Qed.

Lemma transaction_listing_after_posting_witness :
  exists rs db' es,
    handlePOST readme_body readme_db = (status201 rs, db')
    /\ TransactionId.handle reverseOrder "GET" 1172 db' = json es
    /\ es ≡ₚ TransactionId.handleGET insertionOrder 1172 readme_db ++ createdEntries rs
    /\ (forall t', t' <> 1172 ->
          TransactionId.handleGET reverseOrder t' db'
          ≡ₚ TransactionId.handleGET insertionOrder t' readme_db)
    /\ forall t', Forall (fun x => Entry.transactionId x = t')
                    (TransactionId.handleGET reverseOrder t' db').
Proof.
  apply (transaction_listing_after_posting insertionOrder reverseOrder readme_body
           readme_db 1172).
  - vm_compute. exact I.
  - repeat constructor.
Defined.

(** X7.  On consistent rows GET /api/entry/:id returns at most one entry,
    and every entry of the ledger is returned, alone, under its own id. *)
Theorem entry_lookup_by_id (order : RowOrder) (db : Db.t) :
  db_ok db ->
  (forall n, length (EntryId.handleGET order n db) <= 1)%nat
  /\ forall x, x ∈ Db.entries db ->
       EntryId.handle order "GET" (Entry.id x) db = json [x].
Proof.
  intros (_ & _ & _ & Hnd). split.
  - intros n. unfold EntryId.handleGET.
    rewrite (Permutation_length (arrange_perm order _)).
    apply filter_key_length. exact Hnd.
  - intros x Hx. unfold EntryId.handle. cbn. f_equal. unfold EntryId.handleGET.
    apply Permutation_singleton_r.
    rewrite arrange_perm, (filter_unique_key Entry.id _ x Hnd Hx). reflexivity.
Qed.

Lemma entry_lookup_by_id_witness :
  EntryId.handle reverseOrder "GET" 16 posted_db = json [row 16 190428 CREDIT 1234].
Proof.
  apply (proj2 (entry_lookup_by_id reverseOrder posted_db
                  (handlePOST_ok readme_body readme_db readme_db_ok))
           (row 16 190428 CREDIT 1234)).
  vm_compute. right. left.
Defined.



(** ** Reversal, the accounting equation and the projection of balances *)





Lemma netPosition_insert (accs : gmap Z Account.t) i acc acc' :
  accs !! i = Some acc ->
  netPosition (<[i := acc']> accs)
  = netPosition accs - signedBalance acc + signedBalance acc'.
Proof.
  intros Hacc. unfold netPosition.
  rewrite <- (insert_delete_eq accs i acc').
  rewrite map_fold_insert_L; [|intros; lia|apply lookup_delete_eq].
  rewrite (map_fold_delete_L _ _ i acc accs); [lia|intros; lia|exact Hacc].
Qed.

Lemma typed_insert (accs : gmap Z Account.t) i acc acc' e :
  accs !! i = Some acc ->
  Account.accountType acc' = Account.accountType acc ->
  typed accs e -> typed (<[i := acc']> accs) e.
Proof.
  intros Hacc Hty (a0 & Ha0 & Het). unfold typed.
  destruct (decide (i = LedgerEntry.accountId e)) as [->|Hne].
  - exists acc'. rewrite lookup_insert_eq. split; [reflexivity|].
    rewrite Het. congruence.
  - exists a0. rewrite lookup_insert_ne by done. auto.
Qed.

Lemma netPosition_adjust batch : forall accs : gmap Z Account.t,
  Forall (typed accs) batch ->
  Forall (fun e => is_Some (DebitCredit_of_wire (LedgerEntry.debitCredit e))) batch ->
  netPosition (adjust batch accs)
  = netPosition accs + (sumSide DEBIT batch - sumSide CREDIT batch).
Proof.
  induction batch as [|e es IH]; intros accs Hty Hdir.
  - rewrite adjust_nil. cbn. lia.
  - apply Forall_cons in Hty as [(acc & Hacc & Het) Htys].
    apply Forall_cons in Hdir as [[dc Hdc] Hdirs].
    apply DebitCredit_of_wire_Some in Hdc. symmetry in Hdc.
    rewrite <- (adjust_cons e es accs acc Hacc).
    rewrite IH; [| |exact Hdirs].
    2:{ eapply Forall_impl; [exact Htys|]. intros e'.
        apply (typed_insert _ _ acc); [exact Hacc|reflexivity]. }
    rewrite (netPosition_insert _ _ acc _ Hacc).
    unfold signedDelta. rewrite (expectedUpdate_wire e _ dc Het Hdc).
    cbn [sumSide]. rewrite Hdc. unfold signedBalance.
    destruct acc as [i n t b]. cbn. destruct t, dc; cbn; lia.
Qed.

(** X10.  The accounting equation.  When every entry of an accepted batch
    carries the stored type of its account, the posting changes assets
    minus liabilities by the batch's debits minus its credits; a balanced
    batch leaves assets minus liabilities as they were. *)
Theorem posting_moves_net_position (body : TransactionBody.t) (db : Db.t) :
  accepted (fst (handlePOST body db)) ->
  Forall (typed (Db.accounts db)) (batchOf body) ->
  netPosition (Db.accounts (snd (handlePOST body db)))
  = netPosition (Db.accounts db)
    + (sumSide DEBIT (batchOf body) - sumSide CREDIT (batchOf body))
  /\ (balanced (batchOf body) ->
      netPosition (Db.accounts (snd (handlePOST body db))) = netPosition (Db.accounts db)).
Proof.
  intros Hacc Hty. destruct (accepted_run _ _ Hacc) as (rs & db' & Hrun).
  destruct (handlePOST_accepted _ _ _ _ Hrun) as (Haccs & _ & _ & _ & _ & Hpost & _).
  rewrite Hrun. cbn [snd]. rewrite Haccs.
  assert (Heq : netPosition (adjust (batchOf body) (Db.accounts db))
                = netPosition (Db.accounts db)
                  + (sumSide DEBIT (batchOf body) - sumSide CREDIT (batchOf body))).
  { apply netPosition_adjust; [exact Hty|].
    eapply Forall_impl; [exact Hpost|]. intros e [_ He]. exact He. }
  split; [exact Heq|]. unfold balanced. intros Hbal. rewrite Heq, Hbal. lia.
Qed.

Lemma posting_moves_net_position_witness :
  netPosition (Db.accounts (snd (handlePOST (postBatch unbalanced_batch) readme_db)))
  = netPosition (Db.accounts readme_db)
    + (sumSide DEBIT (batchOf (postBatch unbalanced_batch))
       - sumSide CREDIT (batchOf (postBatch unbalanced_batch)))
  /\ netPosition (Db.accounts (snd (handlePOST readme_body readme_db)))
     = netPosition (Db.accounts readme_db).
Proof.
  split.
  - apply (posting_moves_net_position (postBatch unbalanced_batch) readme_db).
    + vm_compute. exact I.
    + repeat constructor; eexists; split; vm_compute; reflexivity.
  - apply (proj2 (posting_moves_net_position readme_body readme_db
                    ltac:(vm_compute; exact I)
                    ltac:(repeat constructor; eexists; split; vm_compute; reflexivity))).
    reflexivity.
Defined.

Lemma projection_app t a xs ys :
  projection t a (xs ++ ys) = projection t a xs + projection t a ys.
Proof. induction xs as [|x xs IH]; cbn; [reflexivity|]. rewrite IH. lia. Qed.

Lemma projection_untargeted t a xs :
  Forall (fun x => Entry.accountId x <> a) xs -> projection t a xs = 0.
Proof.
  induction 1 as [|x xs Hx _ IH]; cbn; [reflexivity|].
  destruct (Z.eqb_spec (Entry.accountId x) a); [contradiction|]. lia.
Qed.

(** The rows created for a batch whose entries carry the stored types
    project to the net adjustment of the batch. *)
Lemma projection_created (accs : gmap Z Account.t) a acc batch : forall i xs,
  records_from i batch xs ->
  Forall (typed accs) batch ->
  accs !! a = Some acc ->
  projection (Account.accountType acc) a xs = netAdjustment a batch.
Proof.
  induction batch as [|e es IH]; intros i [|x xs] Hrec Hty Hacc; cbn in Hrec;
    try contradiction; [reflexivity|].
  destruct Hrec as [(_ & _ & _ & Hdc & Hamt & Hid) Hrest].
  apply Forall_cons in Hty as [(acc0 & Hacc0 & Het) Htys].
  cbn [projection netAdjustment]. rewrite (IH _ _ Hrest Htys Hacc), Hid.
  destruct (Z.eqb_spec (LedgerEntry.accountId e) a) as [Heq|Hne]; [|reflexivity].
  f_equal. rewrite Heq, Hacc in Hacc0. injection Hacc0 as <-.
  unfold signedDelta, rowEffect. symmetry in Hdc.
  rewrite (expectedUpdate_wire e _ _ Het Hdc), Hamt. reflexivity.
Qed.

(** X11.  The balance stays the projection of the entry history.  When
    every balance equals the signed sum of the account's entries, and every
    entry of the submitted batch carries the stored type of its account,
    then after the posting, accepted or not, every balance again equals the
    signed sum of the account's entries. *)
Theorem posting_keeps_balances_projected (body : TransactionBody.t) (db : Db.t) :
  balances_projected db ->
  Forall (typed (Db.accounts db)) (batchOf body) ->
  balances_projected (snd (handlePOST body db)).
Proof.
  intros Hproj Hty.
  destruct (handlePOST body db) as [[rs|err] db'] eqn:Hrun; cbn [snd].
  - destruct (handlePOST_accepted _ _ _ _ Hrun) as (Haccs & Hents & Hrec & _).
    intros a acc'. rewrite Haccs, lookup_adjust, Hents.
    destruct (Db.accounts db !! a) as [acc|] eqn:Hacc; [|discriminate].
    cbn. intros [= <-]. cbn. rewrite projection_app, <- (Hproj _ _ Hacc).
    f_equal. symmetry. exact (projection_created _ _ _ _ _ _ Hrec Hty Hacc).
  - destruct (handlePOST_rejected _ _ _ _ Hrun) as (Haccs & Hents).
    intros a acc. rewrite Haccs, Hents. apply Hproj.
Qed.

Lemma loan_db_projected : balances_projected loan_db.
Proof.
  intros a acc. unfold loan_db. cbn.
  rewrite lookup_insert_Some, lookup_empty. intros [[<- <-]|[_ H]]; [reflexivity|].
  discriminate.
Defined.

Lemma posting_keeps_balances_projected_witness :
  balances_projected (snd (handlePOST (postBatch single_batch) loan_db)).
Proof.
  apply (posting_keeps_balances_projected (postBatch single_batch) loan_db).
  - exact loan_db_projected.
  - repeat constructor. exists loan. split; reflexivity.
Defined.

(** ** Creating accounts *)

Lemma account_create_ok d st : db_ok (Store.db st) -> db_ok (Store.db (snd (account_create d st))).
Proof.
  intros Hok. unfold account_create.
  destruct (match AccountCreateInput.accountType d with
            | Some s => AccountType_of_wire s
            | None => Some ASSET
            end) as [ty|]; [|exact Hok].
  cbn zeta.
  destruct (Db.accounts (Store.db st) !! _) as [old|] eqn:Hfree; cbn; [exact Hok|].
  destruct Hok as (Hkey & Href & Hlt & Hnd). repeat split; cbn; try assumption.
  - intros j a. rewrite lookup_insert_Some. intros [[<- <-]|[_ Hj]]; [reflexivity|].
    exact (Hkey _ _ Hj).
  - eapply Forall_impl; [exact Href|]. cbn. intros x Hx.
    apply lookup_insert_is_Some'. right. exact Hx.
Qed.



(** X13.  POST /api/account never replaces an account: when the id, given
    or drawn from the sequence, is taken, or the type is no member of
    AccountType, the request fails and both tables are exactly as they
    were. *)
Theorem account_never_overwritten (body : AccountBody.t) (st : Store.t) :
  is_Some (Db.accounts (Store.db st)
             !! default (Store.account_id_seq st) (AccountBody.id body))
  \/ (exists s, AccountBody.accountType body = Some s /\ AccountType_of_wire s = None) ->
  exists err st',
    AccountIndex.handlePOST body st = (AccountIndex.failed err, st')
    /\ Store.db st' = Store.db st.
Proof.
  intros Hbad. unfold AccountIndex.handlePOST, account_create. cbn.
  destruct (match AccountBody.accountType body with
            | Some s => AccountType_of_wire s
            | None => Some ASSET
            end) as [ty|] eqn:Hty.
  - destruct Hbad as [[old Hold]|(s & Hs & Hnone)].
    + rewrite Hold. eauto.
    + rewrite Hs, Hnone in Hty. discriminate.
  - eauto.
Qed.

Lemma account_never_overwritten_witness :
  exists err st',
    AccountIndex.handlePOST
      {| AccountBody.id := Some 294329; AccountBody.name := Some "Other";
         AccountBody.accountType := Some "LIABILITY"; AccountBody.balance := None |}
      readme_store
    = (AccountIndex.failed err, st')
    /\ Store.db st' = Store.db readme_store.
Proof.
  apply (account_never_overwritten
           {| AccountBody.id := Some 294329; AccountBody.name := Some "Other";
              AccountBody.accountType := Some "LIABILITY"; AccountBody.balance := None |}
           readme_store).
  left. vm_compute. eauto.
Defined.

Lemma account_create_projected d st :
  AccountCreateInput.balance d = None ->
  db_ok (Store.db st) ->
  balances_projected (Store.db st) ->
  balances_projected (Store.db (snd (account_create d st))).
Proof.
  intros Hbal Hok Hproj. unfold account_create.
  destruct (match AccountCreateInput.accountType d with
            | Some s => AccountType_of_wire s
            | None => Some ASSET
            end) as [ty|]; [|exact Hproj].
  cbn zeta.
  destruct (Db.accounts (Store.db st) !! _) as [old|] eqn:Hfree; cbn; [exact Hproj|].
  intros a acc. cbn. rewrite lookup_insert_Some. intros [[<- <-]|[_ Ha]].
  - cbn. rewrite Hbal. cbn. symmetry. apply projection_untargeted.
    destruct Hok as (_ & Href & _). eapply Forall_impl; [exact Href|].
    cbn. intros x [y Hy] Heq. rewrite Heq, Hfree in Hy. discriminate.
  - exact (Hproj _ _ Ha).
Qed.

(** X14.  Whatever the method and the body, a request to /api/account keeps
    the rows consistent, and keeps every balance equal to the projection of
    the account's entries: a new account has balance 0 and no entry
    references it. *)
Theorem account_route_keeps_invariants (method : string) (body : AccountBody.t)
    (st : Store.t) :
  db_ok (Store.db st) ->
  db_ok (Store.db (snd (AccountIndex.handle method body st)))
  /\ (balances_projected (Store.db st) ->
      balances_projected (Store.db (snd (AccountIndex.handle method body st)))).
Proof.
  intros Hok. unfold AccountIndex.handle.
  destruct (String.eqb method "POST").
  - unfold AccountIndex.handlePOST.
    set (d := AccountCreateInput.mk _ _ _ _).
    pose proof (account_create_ok d st Hok) as H1.
    pose proof (account_create_projected d st eq_refl Hok) as H2.
    destruct (account_create d st) as [[err|a] st']; cbn in *; auto.
  - destruct (String.eqb method "GET"); cbn; auto.
Qed.

Lemma loan_db_ok : db_ok loan_db.
Proof.
  repeat split; cbn; try constructor.
  intros i a. unfold loan_db. cbn.
  rewrite lookup_insert_Some, lookup_empty. intros [[<- <-]|[_ H]]; [reflexivity|].
  discriminate.
Defined.

Lemma account_route_keeps_invariants_witness :
  db_ok (Store.db (snd (AccountIndex.handle "POST"
                          {| AccountBody.id := None; AccountBody.name := None;
                             AccountBody.accountType := Some "ASSET";
                             AccountBody.balance := None |}
                          loan_store)))
  /\ balances_projected
       (Store.db (snd (AccountIndex.handle "POST"
                         {| AccountBody.id := None; AccountBody.name := None;
                            AccountBody.accountType := Some "ASSET";
                            AccountBody.balance := None |}
                         loan_store))).
Proof.
  destruct (account_route_keeps_invariants "POST"
              {| AccountBody.id := None; AccountBody.name := None;
                 AccountBody.accountType := Some "ASSET"; AccountBody.balance := None |}
              loan_store loan_db_ok) as [Hok Hproj].
  split; [exact Hok|]. apply Hproj. exact loan_db_projected.
Defined.

(** X15.  An account that POST /api/account has created can be read back:
    on consistent rows GET /api/account/:id returns it with an empty list
    of entries, and GET /api/account lists it together with every account
    that was there before. *)
Theorem account_read_back (order : RowOrder) (body : AccountBody.t) (st st' : Store.t)
    (a : Account.t) :
  db_ok (Store.db st) ->
  AccountIndex.handlePOST body st = (AccountIndex.account a, st') ->
  AccountId.handle order "GET" (Account.id a) (Store.db st') = json (Some (a, []))
  /\ a ∈ AccountIndex.handleGET st'
  /\ forall b, b ∈ AccountIndex.handleGET st -> b ∈ AccountIndex.handleGET st'.
Proof.
  intros (Hkey & Href & _) Hrun.
  unfold AccountIndex.handlePOST, account_create in Hrun. cbn in Hrun.
  destruct (match AccountBody.accountType body with
            | Some s => AccountType_of_wire s
            | None => Some ASSET
            end) as [ty|]; [|discriminate].
  destruct (Db.accounts (Store.db st) !! _) as [old|] eqn:Hfree; [discriminate|].
  injection Hrun as <- <-. cbn.
  unfold AccountId.handle, AccountId.handleGET, AccountIndex.handleGET. cbn.
  rewrite lookup_insert_eq. cbn. split; [|split].
  - do 3 f_equal. apply Permutation_nil_r. rewrite arrange_perm.
    rewrite filter_none; [reflexivity|].
    eapply Forall_impl; [exact Href|]. cbn. intros x [y Hy] Heq.
    rewrite Heq, Hfree in Hy. discriminate.
  - apply list_elem_of_fmap. eexists (_, _). split; [reflexivity|].
    apply elem_of_map_to_list. apply lookup_insert_eq.
  - intros b Hb. apply list_elem_of_fmap in Hb as ([j b'] & -> & Hb).
    apply elem_of_map_to_list in Hb. cbn.
    apply list_elem_of_fmap. exists (j, b'). split; [reflexivity|].
    apply elem_of_map_to_list. rewrite lookup_insert_ne; [exact Hb|].
    intros <-. rewrite Hfree in Hb. discriminate.
Qed.

Lemma account_read_back_witness :
  AccountId.handle reverseOrder "GET" 8
    (Store.db (snd (AccountIndex.handlePOST
                      {| AccountBody.id := Some 8; AccountBody.name := None;
                         AccountBody.accountType := Some "LIABILITY";
                         AccountBody.balance := None |}
                      readme_store)))
  = json (Some ({| Account.id := 8; Account.name := None;
                   Account.accountType := LIABILITY; Account.balance := 0 |}, [])).
Proof.
  apply (account_read_back reverseOrder
           {| AccountBody.id := Some 8; AccountBody.name := None;
              AccountBody.accountType := Some "LIABILITY"; AccountBody.balance := None |}
           readme_store _
           {| Account.id := 8; Account.name := None;
              Account.accountType := LIABILITY; Account.balance := 0 |}
           readme_db_ok).
  vm_compute. reflexivity.
Defined.

(** ** The order of the entries *)



